(** * Instagram scraper with image analysis: a shallow embedding

    The development follows [insta scrapper with ai analysis.py]: the class
    [InstagramScraper] with its methods [download_media],
    [get_file_extension], [create_download_directory], [analyze_images] and
    [scrape_and_analyze].

    Python values that come out of [json.loads] are modelled by the type
    [json]; dictionaries are finite maps.  Code that talks to the outside
    (HTTP, the file system, the scraping actor, the vision service) runs in
    a state-and-exception monad over an abstract world, whose operations
    are the fields of the class [Collaborators]. *)

From Stdlib Require Import Ascii String Decimal DecimalString DecimalNat.
From stdpp Require Import gmap strings list fin_maps.

#[local] Set Warnings "-register-all".

(** ** Python exceptions and results *)

Module Py.

(** An exception is its class name and the text [str(e)] gives. *)
Record exn := Exn { exn_class : string; exn_str : string }.

(** The outcome of an expression that may raise. *)
Inductive result (A : Type) :=
  | Ok (a : A)
  | Raise (e : exn).
Arguments Ok {A} a.
Arguments Raise {A} e.

Definition is_ok {A} (r : result A) : bool :=
  match r with Ok _ => true | Raise _ => false end.

(** Values produced by [json.loads].  Numbers are kept as integers: the
    program only ever tests a number for truth and never computes with it. *)
Inductive json :=
  | JNull
  | JBool (b : bool)
  | JNum (z : Z)
  | JStr (s : string)
  | JArr (l : list json)
  | JObj (m : gmap string json).

(** [bool(v)]: the test an [if v:] performs. *)
Definition truthy (v : json) : bool :=
  match v with
  | JNull => false
  | JBool b => b
  | JNum z => negb (Z.eqb z 0)
  | JStr s => negb (String.eqb s "")
  | JArr l => match l with [] => false | _ => true end
  | JObj m => negb (bool_decide (m = ∅))
  end.

Definition type_name (v : json) : string :=
  match v with
  | JNull => "NoneType"
  | JBool _ => "bool"
  | JNum _ => "int"
  | JStr _ => "str"
  | JArr _ => "list"
  | JObj _ => "dict"
  end.

(** [v.get(k)]: only a dictionary has the method; a missing key gives
    [None]. *)
Definition get (v : json) (k : string) : result json :=
  match v with
  | JObj m => Ok (default JNull (m !! k))
  | _ => Raise (Exn "AttributeError"
                  ("'" +:+ type_name v +:+ "' object has no attribute 'get'"))
  end.

(** The characters of a string, each as a one-character string. *)
Fixpoint chars (s : string) : list json :=
  match s with
  | EmptyString => []
  | String c r => JStr (String c EmptyString) :: chars r
  end.

(** [iter(v)]: the elements a [for] loop visits.  A dictionary yields its
    keys (here in the order of the finite map; every key is a string). *)
Definition iter (v : json) : result (list json) :=
  match v with
  | JArr l => Ok l
  | JStr s => Ok (chars s)
  | JObj m => Ok (JStr <$> (map_to_list m).*1)
  | _ => Raise (Exn "TypeError"
                  ("'" +:+ type_name v +:+ "' object is not iterable"))
  end.

(** [len(v)]. *)
Definition len (v : json) : result nat :=
  match v with
  | JArr l => Ok (length l)
  | JStr s => Ok (String.length s)
  | JObj m => Ok (size m)
  | _ => Raise (Exn "TypeError"
                  ("object of type '" +:+ type_name v +:+ "' has no len()"))
  end.

(** [v[k]] for a string key. *)
Definition getitem (v : json) (k : string) : result json :=
  match v with
  | JObj m =>
      match m !! k with
      | Some x => Ok x
      | None => Raise (Exn "KeyError" ("'" +:+ k +:+ "'"))
      end
  | JArr _ => Raise (Exn "TypeError"
                "list indices must be integers or slices, not str")
  | JStr _ => Raise (Exn "TypeError" "string indices must be integers")
  | _ => Raise (Exn "TypeError"
                  ("'" +:+ type_name v +:+ "' object is not subscriptable"))
  end.

(** [enumerate(l, start)]. *)
Fixpoint enumerate {A} (l : list A) (start : nat) : list (nat * A) :=
  match l with
  | [] => []
  | x :: r => (start, x) :: enumerate r (S start)
  end.

(** [str(n)] and [f"{n}"] for a non-negative integer. *)
Definition str_int (n : nat) : string :=
  NilZero.string_of_uint (Nat.to_uint n).

End Py.
Export Py.

(** ** Strings: the library functions [get_file_extension] relies on *)

Module Str.

Fixpoint has_char (c : ascii) (s : string) : bool :=
  match s with
  | EmptyString => false
  | String d r => if Ascii.eqb d c then true else has_char c r
  end.

(** [str.lower] on one character: the letters A to Z move to a to z, every
    other character is kept.  A character stands for one ASCII character of
    the Python string; letters outside ASCII are not modelled. *)
Definition lower_char (c : ascii) : ascii :=
  let n := nat_of_ascii c in
  if (65 <=? n)%nat && (n <=? 90)%nat then ascii_of_nat (n + 32) else c.

Fixpoint lower (s : string) : string :=
  match s with
  | EmptyString => EmptyString
  | String c r => String (lower_char c) (lower r)
  end.

(** [os.path.splitext(p)[1]] on POSIX.  The extension starts at the last
    dot of the last path component (the text after the last slash),
    provided some character of that component before the dot is not a dot;
    otherwise it is empty.  [seen] records whether the current component
    has shown a character other than a dot so far. *)
Fixpoint splitext_go (seen : bool) (p : string) : string :=
  match p with
  | EmptyString => EmptyString
  | String c r =>
      if Ascii.eqb c "/" then splitext_go false r
      else if Ascii.eqb c "." then
        if has_char "/" r || has_char "." r then splitext_go seen r
        else if seen then p else EmptyString
      else splitext_go true r
  end.

Definition splitext_ext (p : string) : string := splitext_go false p.

(** [s.split(sep)] for a one-character separator. *)
Fixpoint split (sep : ascii) (s : string) : list string :=
  match s with
  | EmptyString => [EmptyString]
  | String c r =>
      if Ascii.eqb c sep then EmptyString :: split sep r
      else match split sep r with
           | x :: xs => String c x :: xs
           | [] => [String c EmptyString]
           end
  end.

Definition is_digit (c : ascii) : bool :=
  let n := nat_of_ascii c in (48 <=? n)%nat && (n <=? 57)%nat.

Fixpoint all_digits (s : string) : bool :=
  match s with
  | EmptyString => true
  | String c r => is_digit c && all_digits r
  end.

(** The shape of a file extension: a dot, then text without a slash. *)
Definition is_ext (e : string) : bool :=
  match e with
  | EmptyString => false
  | String c r => Ascii.eqb c "." && negb (has_char "/" r)
  end.

(** [sep.join(l)]. *)
Fixpoint join (sep : string) (l : list string) : string :=
  match l with
  | [] => EmptyString
  | [x] => x
  | x :: r => x +:+ sep +:+ join sep r
  end.

End Str.

(** ** [pathlib.Path], relative POSIX paths *)

Module PathLib.

(** A path is the list of its components, as [PurePosixPath.parts] has
    them.  Every path of the program is relative: it is built from the
    literal [instagram_downloads/...]. *)
Record Path := MkPath { parts : list string }.

#[global] Instance Path_eq_dec : EqDecision Path.
Proof. solve_decision. Defined.

(** Parsing a relative path string: empty components and [.] are dropped. *)
Definition parse_parts (s : string) : list string :=
  filter (λ x, x ≠ "" ∧ x ≠ ".") (Str.split "/" s).

(** [Path(s)] *)
Definition path_of (s : string) : Path := MkPath (parse_parts s).

(** [p / s] for a relative [s] *)
Definition div (p : Path) (s : string) : Path :=
  MkPath (parts p ++ parse_parts s).

(** [str(p)] *)
Definition path_str (p : Path) : string :=
  match parts p with
  | [] => "."
  | l => Str.join "/" l
  end.

(** [p.parent] *)
Definition parent (p : Path) : Path :=
  MkPath (removelast (parts p)).

End PathLib.
Export PathLib.

Infix "//" := div (at level 40, left associativity).

(** ** The vision service's answers and the analysis records *)

Module Vision.

Inductive Likelihood :=
  | UNKNOWN | VERY_UNLIKELY | UNLIKELY | POSSIBLE | LIKELY | VERY_LIKELY.

(** [likelihood.name] *)
Definition name (l : Likelihood) : string :=
  match l with
  | UNKNOWN => "UNKNOWN"
  | VERY_UNLIKELY => "VERY_UNLIKELY"
  | UNLIKELY => "UNLIKELY"
  | POSSIBLE => "POSSIBLE"
  | LIKELY => "LIKELY"
  | VERY_LIKELY => "VERY_LIKELY"
  end.

Section Annotations.
(** Scores and confidences are floating-point numbers the program only
    copies; their type is left open. *)
Variable float : Type.

(** The fields of the service's answers the program reads. *)
Record FaceAnnotation := {
  joy_likelihood : Likelihood;
  sorrow_likelihood : Likelihood;
  anger_likelihood : Likelihood;
  surprise_likelihood : Likelihood;
  detection_confidence : float }.

Record EntityAnnotation := { description : string; score : float }.

Record SafeSearchAnnotation := {
  adult : Likelihood; violence : Likelihood; racy : Likelihood }.

(** The dictionaries [analyze_images] builds. *)
Record FaceData := {
  fd_joy : string; fd_sorrow : string; fd_anger : string;
  fd_surprise : string; fd_confidence : float }.

Record LabelData := { ld_description : string; ld_score : float }.

Record SafeSearchData := {
  sd_adult : string; sd_violence : string; sd_racy : string }.

(** One entry of [results]: the analysis of an image, or
    [{'image_path': ..., 'error': ...}]. *)
Inductive AnnotationRecord :=
  | Analysis (image_path : string) (faces : list FaceData)
      (labels : list LabelData) (safe_search : SafeSearchData)
  | AnalysisError (image_path : string) (error : string).

Definition record_path (r : AnnotationRecord) : string :=
  match r with
  | Analysis p _ _ _ => p
  | AnalysisError p _ => p
  end.

Definition is_error (r : AnnotationRecord) : bool :=
  match r with Analysis _ _ _ _ => false | AnalysisError _ _ => true end.
End Annotations.

Arguments joy_likelihood {float} _.
Arguments sorrow_likelihood {float} _.
Arguments anger_likelihood {float} _.
Arguments surprise_likelihood {float} _.
Arguments detection_confidence {float} _.
Arguments description {float} _.
Arguments score {float} _.
Arguments Build_FaceData {float}.
Arguments Build_LabelData {float}.
Arguments Analysis {float}.
Arguments AnalysisError {float}.
Arguments record_path {float} _.
Arguments is_error {float} _.

End Vision.
Export Vision.

(** ** What the program sees of the outside *)

(** [requests.Response]: the status code and the body. *)
Record Response := { status_code : nat; content : string }.

(** The [run_input] dictionary handed to the scraping actor. *)
Record RunInput := {
  directUrls : list string;
  resultsType : string;
  resultsLimit : Z }.

(** The collaborators, over a world [W].  An operation takes the world and
    gives back its outcome and the world after it; the pure library
    functions take no world. *)
Class Collaborators (W float : Type) := {
  (** [requests.get(url, stream=..., timeout=30)] *)
  requests_get : json → bool → W → result Response * W;
  (** [open(path, 'w')] or [open(path, 'wb')]: creates or truncates *)
  open_w : Path → W → result unit * W;
  (** the body of the [with] block of [download_media]: the chunks of the
      response written to the open file *)
  write_stream : Path → Response → W → result unit * W;
  (** [urlparse(url).path] for a string; it raises on some strings *)
  urlparse_path : string → result string;
  (** [repr(v)], as an f-string prints a value that is not a string *)
  py_repr : json → string;
  (** [dir_path.mkdir(parents=True, exist_ok=True)] *)
  mkdir : Path → W → result unit * W;
  (** [client.actor("apify/instagram-scraper").call(run_input=...)] *)
  actor_call : RunInput → W → result json * W;
  (** [json.loads(bytes)] *)
  json_loads : string → result json;
  (** [json.dump(v, file, indent=2)] on the open file at the path *)
  dump_json : Path → json → W → result unit * W;
  dump_records : Path → list (AnnotationRecord float) → W → result unit * W;
  (** [open(path, 'rb')] and [file.read()] *)
  read_bytes : Path → W → result string * W;
  (** the three calls on the vision client, each giving the annotations
      of its answer *)
  face_detection : string → W → result (list (FaceAnnotation float)) * W;
  label_detection : string → W → result (list (EntityAnnotation float)) * W;
  safe_search_detection : string → W → result SafeSearchAnnotation * W }.

(** ** The scraper *)

Module Scraper.

Inductive MediaKind := Image | Video.

#[global] Instance MediaKind_eq_dec : EqDecision MediaKind.
Proof. solve_decision. Defined.

(** A unit of work of the post loop: the URL a branch takes up, with the
    kind of the branch and the indices of the post and, inside a carousel,
    of the item. *)
Record MediaItem := {
  sourceUrl : json;
  kind : MediaKind;
  postIndex : nat;
  carouselIndex : option nat }.

Inductive Level := INFO | ERROR.

(** What a run leaves behind, in order.  [Log] is a call of the logger;
    the other events record a step of the program that the world type
    does not show: a branch of the post loop taking up a media item, a
    call of [download_media] with its answer, and the two [json.dump]
    calls with their payload. *)
Inductive event (float : Type) :=
  | Log (lvl : Level) (msg : string)
  | Item (m : MediaItem)
  | Download (url : json) (save_path : Path) (ok : bool)
  | DumpMetadata (path : Path) (v : json)
  | DumpAnalysis (path : Path) (records : list (AnnotationRecord float)).
Arguments Log {float}.
Arguments Item {float}.
Arguments Download {float}.
Arguments DumpMetadata {float}.
Arguments DumpAnalysis {float}.

(** The summary [scrape_and_analyze] returns. *)
Inductive RunSummary :=
  | Success (base_directory : string) (posts_processed images_analyzed : nat)
      (metadata_path analysis_path : string)
  | Failure (error : string).

(** *** The monad of the program *)

Section Monad.
Context {W float : Type}.

(** The state a run threads: the world, the events so far, and the local
    list [downloaded_images] of [scrape_and_analyze], which the post loop
    appends to. *)
Record state := {
  world : W;
  trace : list (event float);
  downloaded_images : list Path }.

Definition M (A : Type) : Type := state → result A * state.

Definition ret {A} (a : A) : M A := λ s, (Ok a, s).

Definition bind {A B} (m : M A) (k : A → M B) : M B :=
  λ s, match m s with
       | (Ok a, s') => k a s'
       | (Raise e, s') => (Raise e, s')
       end.

(** [try: m / except Exception as e: h e] *)
Definition try_except {A} (m : M A) (h : exn → M A) : M A :=
  λ s, match m s with
       | (Ok a, s') => (Ok a, s')
       | (Raise e, s') => h e s'
       end.

(** An expression without effect that may raise. *)
Definition lift {A} (r : result A) : M A := λ s, (r, s).

(** A collaborator's operation, run on the world of the state. *)
Definition call {A} (op : W → result A * W) : M A :=
  λ s, let '(r, w) := op (world s) in
       (r, {| world := w; trace := trace s;
              downloaded_images := downloaded_images s |}).

Definition emit (e : event float) : M unit :=
  λ s, (Ok tt, {| world := world s; trace := trace s ++ [e];
                  downloaded_images := downloaded_images s |}).

Definition get_images : M (list Path) := λ s, (Ok (downloaded_images s), s).

Definition set_images (l : list Path) : M unit :=
  λ s, (Ok tt, {| world := world s; trace := trace s;
                  downloaded_images := l |}).

Definition logger_info (msg : string) : M unit := emit (Log INFO msg).
Definition logger_error (msg : string) : M unit := emit (Log ERROR msg).

End Monad.

Arguments state : clear implicits.

Notation "'let*' x ':=' m 'in' k" := (bind m (λ x, k))
  (at level 10, x pattern, m at level 100, k at level 200).
Notation "m1 '>>' m2" := (bind m1 (λ _, m2))
  (at level 100, m2 at level 200, right associativity).

Fixpoint for_each {W float A} (l : list A) (body : A → @M W float unit)
  : @M W float unit :=
  match l with
  | [] => ret tt
  | x :: r => body x >> for_each r body
  end.

(** *** Projections of a trace *)

Definition items {float} (tr : list (event float)) : list MediaItem :=
  omap (λ e, match e with Item m => Some m | _ => None end) tr.

Definition downloads {float} (tr : list (event float))
  : list (json * Path * bool) :=
  omap (λ e, match e with
             | Download url p ok => Some (url, p, ok)
             | _ => None
             end) tr.

(** The calls of [download_media], without their answers. *)
Definition attempts {float} (tr : list (event float)) : list (json * Path) :=
  fst <$> downloads tr.

(** The files a trace shows as downloaded into the directory [dir]. *)
Definition stored_in {float} (dir : Path) (tr : list (event float))
  : list Path :=
  omap (λ '(url, p, ok),
        if ok && bool_decide (parent p = dir) then Some p else None)
       (downloads tr).

(** The [json.dump] calls of a trace. *)
Definition dumps {float} (tr : list (event float)) : list (event float) :=
  omap (λ e, match e with
             | DumpMetadata _ _ | DumpAnalysis _ _ => Some e
             | _ => None
             end) tr.

(** *** The methods of [InstagramScraper] *)

Section Program.
Context {W float : Type} `{C : Collaborators W float}.

Local Abbreviation M := (@M W float).

(** How an f-string prints a value: a string as itself, anything else
    through [py_repr]. *)
Definition fmt (v : json) : string :=
  match v with JStr s => s | _ => py_repr v end.

(** [response.raise_for_status()]: the codes 400 to 599 raise (the text of
    the exception is abridged). *)
Definition raise_for_status (r : Response) : result unit :=
  if (400 <=? status_code r)%nat && (status_code r <? 600)%nat
  then Raise (Exn "HTTPError" (str_int (status_code r) +:+ " Error"))
  else Ok tt.

(** The [try] block of [download_media] (lines 40 to 46). *)
Definition download_body (url : json) (save_path : Path) : M bool :=
  let* response := call (requests_get url true) in
  lift (raise_for_status response) >>
  call (open_w save_path) >>
  call (write_stream save_path response) >>
  ret true.

Definition download_media (url : json) (save_path : Path) : M bool :=
  let* ok :=
    try_except (download_body url save_path)
      (λ e, logger_error ("Error downloading " +:+ fmt url +:+ ": "
                          +:+ exn_str e) >>
            ret false) in
  emit (Download url save_path ok) >>
  ret ok.

(** [get_file_extension].  [urlparse] takes a string; given anything else
    it decodes it as bytes, which raises for a value that is true and gives
    an empty result (so the default extension) for one that is false. *)
Definition get_file_extension (url : json) : result string :=
  match url with
  | JStr s =>
      match urlparse_path s with
      | Ok path =>
          let e := Str.lower (Str.splitext_ext path) in
          Ok (if String.eqb e "" then ".jpg" else e)
      | Raise e => Raise e
      end
  | _ =>
      if truthy url
      then Raise (Exn "AttributeError"
                    ("'" +:+ type_name url
                     +:+ "' object has no attribute 'decode'"))
      else Ok ".jpg"
  end.

Definition create_download_directory (username : string)
  : M (Path * Path * Path) :=
  let base_dir := path_of ("instagram_downloads/" +:+ username) in
  let images_dir := base_dir // "images" in
  let videos_dir := base_dir // "videos" in
  for_each [base_dir; images_dir; videos_dir] (λ dir_path,
    call (mkdir dir_path)) >>
  ret (base_dir, images_dir, videos_dir).

(** **** [analyze_images] *)

Definition face_data (face : FaceAnnotation float) : FaceData float :=
  Build_FaceData
    (name (joy_likelihood face)) (name (sorrow_likelihood face))
    (name (anger_likelihood face)) (name (surprise_likelihood face))
    (detection_confidence face).

Definition label_data (label : EntityAnnotation float) : LabelData float :=
  Build_LabelData (description label) (score label).

Definition safe_search_data (a : SafeSearchAnnotation) : SafeSearchData :=
  {| sd_adult := name (adult a); sd_violence := name (violence a);
     sd_racy := name (racy a) |}.

(** Lines 84 to 123: the image is read, the three analyses are asked for,
    and the dictionary [analysis] is built. *)
Definition vision_analysis (image_path : Path) : M (AnnotationRecord float) :=
  let* image := call (read_bytes image_path) in
  let* face_annotations := call (face_detection image) in
  let* label_annotations := call (label_detection image) in
  let* safe_search := call (safe_search_detection image) in
  ret (Analysis (path_str image_path)
         (face_data <$> face_annotations)
         (label_data <$> label_annotations)
         (safe_search_data safe_search)).

(** One turn of the loop over [image_paths]; [results] is the list built
    so far, and the turn gives back the list after its [append]. *)
Definition analyze_image (results : list (AnnotationRecord float))
    (image_path : Path) : M (list (AnnotationRecord float)) :=
  try_except
    (let* analysis := vision_analysis image_path in
     let results := results ++ [analysis] in
     logger_info ("Successfully analyzed " +:+ path_str image_path) >>
     ret results)
    (λ e,
     logger_error ("Error analyzing " +:+ path_str image_path +:+ ": "
                   +:+ exn_str e) >>
     ret (results ++ [AnalysisError (path_str image_path) (exn_str e)])).

Fixpoint analyze_loop (results : list (AnnotationRecord float))
    (image_paths : list Path) : M (list (AnnotationRecord float)) :=
  match image_paths with
  | [] => ret results
  | image_path :: rest =>
      let* results := analyze_image results image_path in
      analyze_loop results rest
  end.

Definition analyze_images (image_paths : list Path)
  : M (list (AnnotationRecord float)) :=
  analyze_loop [] image_paths.

(** **** [scrape_and_analyze] *)

(** [downloaded_images.append(save_path)] *)
Definition append_image (save_path : Path) : M unit :=
  let* l := get_images in set_images (l ++ [save_path]).

(** The body of the loop over [sidecarItems] (lines 195 to 205). *)
Definition process_item (images_dir videos_dir : Path) (i : nat)
    (ji : nat * json) : M unit :=
  let '(j, item) := ji in
  let* d := lift (get item "displayUrl") in
  let* image_branch :=
    if truthy d
    then let* v := lift (get item "videoUrl") in ret (negb (truthy v))
    else ret false in
  if image_branch then
    let* url := lift (getitem item "displayUrl") in
    emit (Item {| sourceUrl := url; kind := Image; postIndex := i;
                  carouselIndex := Some j |}) >>
    let* ext := lift (get_file_extension url) in
    let save_path :=
      images_dir // ("post_" +:+ str_int i +:+ "_carousel_"
                     +:+ str_int j +:+ ext) in
    let* ok := download_media url save_path in
    if ok then
      logger_info ("Downloaded carousel image " +:+ str_int j
                   +:+ " from post " +:+ str_int i) >>
      append_image save_path
    else ret tt
  else
    let* v := lift (get item "videoUrl") in
    if truthy v then
      let* url := lift (getitem item "videoUrl") in
      emit (Item {| sourceUrl := url; kind := Video; postIndex := i;
                    carouselIndex := Some j |}) >>
      let* ext := lift (get_file_extension url) in
      let save_path :=
        videos_dir // ("post_" +:+ str_int i +:+ "_carousel_"
                       +:+ str_int j +:+ ext) in
      let* ok := download_media url save_path in
      if ok then
        logger_info ("Downloaded carousel video " +:+ str_int j
                     +:+ " from post " +:+ str_int i)
      else ret tt
    else ret tt.

(** The video and single-image branches of a post (lines 178 to 190). *)
Definition process_top_level (images_dir videos_dir : Path) (i : nat)
    (post : json) : M unit :=
  let* v := lift (get post "videoUrl") in
  (if truthy v then
     let* url := lift (getitem post "videoUrl") in
     emit (Item {| sourceUrl := url; kind := Video; postIndex := i;
                   carouselIndex := None |}) >>
     let* ext := lift (get_file_extension url) in
     let save_path := videos_dir // ("post_" +:+ str_int i +:+ ext) in
     let* ok := download_media url save_path in
     if ok then logger_info ("Downloaded video " +:+ str_int i)
     else ret tt
   else ret tt) >>
  let* d := lift (get post "displayUrl") in
  let* image_branch :=
    if truthy d
    then let* v := lift (get post "videoUrl") in ret (negb (truthy v))
    else ret false in
  if image_branch then
    let* url := lift (getitem post "displayUrl") in
    emit (Item {| sourceUrl := url; kind := Image; postIndex := i;
                  carouselIndex := None |}) >>
    let* ext := lift (get_file_extension url) in
    let save_path := images_dir // ("post_" +:+ str_int i +:+ ext) in
    let* ok := download_media url save_path in
    if ok then
      logger_info ("Downloaded image " +:+ str_int i) >>
      append_image save_path
    else ret tt
  else ret tt.

(** The carousel branch of a post (lines 193 to 205). *)
Definition process_sidecar (images_dir videos_dir : Path) (i : nat)
    (post : json) : M unit :=
  let* sc := lift (get post "sidecarItems") in
  if truthy sc then
    let* seq := lift (getitem post "sidecarItems") in
    let* item_list := lift (iter seq) in
    for_each (enumerate item_list 1) (process_item images_dir videos_dir i)
  else ret tt.

(** The body of the loop over [posts], with its [try] (lines 176 to 209). *)
Definition process_post (images_dir videos_dir : Path)
    (ip : nat * json) : M unit :=
  let '(i, post) := ip in
  try_except
    (process_top_level images_dir videos_dir i post >>
     process_sidecar images_dir videos_dir i post)
    (λ e, logger_error ("Error processing post " +:+ str_int i +:+ ": "
                        +:+ exn_str e)).

(** Lines 172 to 209: the loop over the posts. *)
Definition process_posts (images_dir videos_dir : Path) (posts : json)
  : M unit :=
  set_images [] >>
  let* post_list := lift (iter posts) in
  for_each (enumerate post_list 1) (process_post images_dir videos_dir).

(** Lines 159 to 209: the posts are fetched, the metadata is saved and the
    media are downloaded.  The block gives the two values the rest of the
    function reads, [metadata_path] and [posts]. *)
Definition fetch_posts (base_dir images_dir videos_dir : Path)
    (run_input : RunInput) : M (Path * json) :=
  let* run := call (actor_call run_input) in
  let* dataset_id := lift (getitem run "defaultDatasetId") in
  let dataset_url :=
    "https://api.apify.com/v2/datasets/" +:+ fmt dataset_id
    +:+ "/items?format=json" in
  let* response := call (requests_get (JStr dataset_url) false) in
  lift (raise_for_status response) >>
  let metadata_path := base_dir // "metadata.json" in
  call (open_w metadata_path) >>
  let* metadata := lift (json_loads (content response)) in
  call (dump_json metadata_path metadata) >>
  emit (DumpMetadata metadata_path metadata) >>
  let* posts := lift (json_loads (content response)) in
  process_posts images_dir videos_dir posts >>
  ret (metadata_path, posts).

(** Lines 211 to 226: the images are analysed, the results are saved and
    the summary is built. *)
Definition annotate_and_save (base_dir metadata_path : Path) (posts : json)
  : M RunSummary :=
  let* downloaded := get_images in
  let* analysis_results := analyze_images downloaded in
  let analysis_path := base_dir // "analysis_results.json" in
  call (open_w analysis_path) >>
  call (dump_records analysis_path analysis_results) >>
  emit (DumpAnalysis analysis_path analysis_results) >>
  let* n := lift (len posts) in
  ret (Success (path_str base_dir) n (length analysis_results)
         (path_str metadata_path) (path_str analysis_path)).

Definition run_input_of (username : string) (limit : Z) : RunInput :=
  {| directUrls := ["https://www.instagram.com/" +:+ username +:+ "/"];
     resultsType := "posts";
     resultsLimit := limit |}.

Definition scrape_and_analyze (username : string) (limit : Z)
  : M RunSummary :=
  logger_info ("Starting to scrape posts from " +:+ username
               +:+ "'s Instagram...") >>
  let* dirs := create_download_directory username in
  let '(base_dir, images_dir, videos_dir) := dirs in
  let run_input := run_input_of username limit in
  try_except
    (let* fetched :=
       fetch_posts base_dir images_dir videos_dir run_input in
     let '(metadata_path, posts) := fetched in
     annotate_and_save base_dir metadata_path posts)
    (λ e,
     logger_error ("Error in scrape_and_analyze: " +:+ exn_str e) >>
     ret (Failure (exn_str e))).

(** *** The components the specification names *)

(** **** Path Planner
    The destination of a media item, as the four branches of the post loop
    build it: the directory of the kind, then [post_{i}{ext}] for the media
    of the post itself and [post_{i}_carousel_{j}{ext}] for a carousel
    item. *)
Definition file_name (i : nat) (j : option nat) (ext : string) : string :=
  match j with
  | None => "post_" +:+ str_int i +:+ ext
  | Some j => "post_" +:+ str_int i +:+ "_carousel_" +:+ str_int j +:+ ext
  end.

Definition media_dir (images_dir videos_dir : Path) (k : MediaKind) : Path :=
  match k with Image => images_dir | Video => videos_dir end.

Definition plan_in (images_dir videos_dir : Path) (m : MediaItem)
  : result Path :=
  match get_file_extension (sourceUrl m) with
  | Ok ext =>
      Ok (media_dir images_dir videos_dir (kind m)
          // file_name (postIndex m) (carouselIndex m) ext)
  | Raise e => Raise e
  end.

(** The directories of a user's run, as [create_download_directory] names
    them. *)
Definition base_dir_of (username : string) : Path :=
  path_of ("instagram_downloads/" +:+ username).
Definition images_dir_of (username : string) : Path :=
  base_dir_of username // "images".
Definition videos_dir_of (username : string) : Path :=
  base_dir_of username // "videos".

Definition plan (username : string) (postIndex : nat)
    (carouselIndex : option nat) (mediaKind : MediaKind) (sourceUrl : json)
  : result Path :=
  plan_in (images_dir_of username) (videos_dir_of username)
    {| sourceUrl := sourceUrl; kind := mediaKind; postIndex := postIndex;
       carouselIndex := carouselIndex |}.

(** The call of [download_media] an item leads to, when its extension can
    be derived. *)
Definition attempt_of (images_dir videos_dir : Path) (m : MediaItem)
  : option (json * Path) :=
  match plan_in images_dir videos_dir m with
  | Ok p => Some (sourceUrl m, p)
  | Raise _ => None
  end.

(** **** Post Decomposer
    The media items of a post in the words of the specification: a video
    URL wins over a display URL, on the post and on each carousel item.
    The boolean tells whether the walk goes on after the items: it is
    false where the program raises (a value that is no dictionary, a
    carousel that cannot be iterated, a URL whose extension cannot be
    derived), which ends the work on the post. *)
Definition decompose_entry (i : nat) (j : option nat) (entry : json)
  : list MediaItem * bool :=
  match get entry "videoUrl", get entry "displayUrl" with
  | Ok v, Ok d =>
      if truthy v then
        ([{| sourceUrl := v; kind := Video; postIndex := i;
             carouselIndex := j |}],
         is_ok (get_file_extension v))
      else if truthy d then
        ([{| sourceUrl := d; kind := Image; postIndex := i;
             carouselIndex := j |}],
         is_ok (get_file_extension d))
      else ([], true)
  | _, _ => ([], false)
  end.

Fixpoint decompose_items (i : nat) (l : list (nat * json))
  : list MediaItem * bool :=
  match l with
  | [] => ([], true)
  | (j, item) :: r =>
      let '(a, go) := decompose_entry i (Some j) item in
      if go then
        let '(b, go') := decompose_items i r in (a ++ b, go')
      else (a, false)
  end.

Definition decompose_sidecar (i : nat) (post : json) : list MediaItem * bool :=
  match get post "sidecarItems" with
  | Ok sc =>
      if truthy sc then
        match iter sc with
        | Ok item_list => decompose_items i (enumerate item_list 1)
        | Raise _ => ([], false)
        end
      else ([], true)
  | Raise _ => ([], false)
  end.

Definition decompose (i : nat) (post : json) : list MediaItem :=
  let '(a, go) := decompose_entry i None post in
  if go then a ++ (decompose_sidecar i post).1 else a.

Definition decompose_all (post_list : list json) : list MediaItem :=
  mbind (M := list) (λ '(i, post), decompose i post) (enumerate post_list 1).

(** *** Summaries of effects
    [effects m Q]: from every state, [m] gives a result [r], appends
    events [tr] to the trace and paths [imgs] to [downloaded_images], and
    [Q r tr imgs] holds, whatever the collaborators answer. *)
Definition effects {A} (m : M A)
    (Q : result A → list (event float) → list Path → Prop) : Prop :=
  ∀ s, ∃ r w tr imgs,
    m s = (r, {| world := w; trace := trace s ++ tr;
                 downloaded_images := downloaded_images s ++ imgs |})
    ∧ Q r tr imgs.

(** The events [tr] and the appended images [imgs] of a stretch of the
    post loop fit together: the calls of [download_media] are the ones the
    items taken up lead to, the images appended are the files stored in
    the image directory, and nothing was dumped. *)
Definition orderly (images_dir videos_dir : Path)
    (tr : list (event float)) (imgs : list Path) : Prop :=
  attempts tr = omap (attempt_of images_dir videos_dir) (items tr)
  ∧ imgs = stored_in images_dir tr
  ∧ dumps tr = [].

(** *** Notions the further properties speak of *)

(** The entry [entry] (a post or a carousel item) holds the URL of the
    media item [it] in the field of its kind. *)
Definition entry_has (entry : json) (it : MediaItem) : Prop :=
  match kind it with
  | Video => get entry "videoUrl" = Ok (sourceUrl it)
  | Image => get entry "displayUrl" = Ok (sourceUrl it)
  end.

(** The entries the carousel loop of a post runs over: what iterating
    [post['sidecarItems']] gives, when the field is true. *)
Definition carousel_entries (post : json) : list json :=
  match get post "sidecarItems" with
  | Ok sc =>
      if truthy sc then
        match iter sc with Ok item_list => item_list | Raise _ => [] end
      else []
  | Raise _ => []
  end.

(** The line [analyze_images] logs for the record it appends. *)
Definition log_of_record (r : AnnotationRecord float) : event float :=
  match r with
  | Analysis p _ _ _ => Log INFO ("Successfully analyzed " +:+ p)
  | AnalysisError p err => Log ERROR ("Error analyzing " +:+ p +:+ ": " +:+ err)
  end.

End Program.
End Scraper.

(** ** The entry point *)

Module Main.
Import Scraper.

(** What [main] needs beyond the collaborators of the scraper: the prompt
    [input(text)], and the constructor [InstagramScraper(token, path)],
    which builds the two clients and raises when it cannot. *)
Class Console (W : Type) := {
  input : string → W → result string * W;
  new_scraper : string → string → W → result unit * W }.

Definition APIFY_TOKEN : string := "Your_apify_api_key".
Definition CREDENTIALS_PATH : string :=
  "/path/to/your/google vision api/file.json".

Section Program.
Context {W float : Type} `{C : Collaborators W float} `{K : Console W}.

(** [main].  [limit] is the default of the parameter of
    [scrape_and_analyze], a value fixed when the class was defined; [main]
    passes no limit of its own. *)
Definition main (limit : Z) : @M W float unit :=
  let* USERNAME := call (input "Enter Username to scrape: ") in
  call (new_scraper APIFY_TOKEN CREDENTIALS_PATH) >>
  let* results := scrape_and_analyze USERNAME limit in
  match results with
  | Success base_directory _ _ _ _ =>
      logger_info "Scraping and analysis completed successfully!" >>
      logger_info ("Results saved in: " +:+ base_directory)
  | Failure error => logger_error ("Process failed: " +:+ error)
  end.

End Program.
End Main.

(** ** A scripted world for the examples *)

Module Demo.
Import Scraper.

(** What the outside answers in an example run. *)
Record Script := {
  (** the answer of the actor call *)
  sc_run : result json;
  (** the answer to the request for the dataset *)
  sc_dataset : result Response;
  (** what the body of the dataset decodes to *)
  sc_posts : result json;
  (** media URLs whose download breaks *)
  sc_bad_urls : list string;
  (** image files the vision service refuses *)
  sc_bad_images : list string }.

(** The world is the list of the files opened for writing, in order. *)
Definition World := list string.

Fixpoint take_until (stop : ascii → bool) (s : string) : string :=
  match s with
  | EmptyString => EmptyString
  | String c r => if stop c then EmptyString else String c (take_until stop r)
  end.

Fixpoint drop_until (stop : ascii → bool) (s : string) : string :=
  match s with
  | EmptyString => EmptyString
  | String c r => if stop c then s else drop_until stop r
  end.

(** A stand-in for [urlparse(url).path] that covers the URLs of the
    examples: the query and the fragment are cut off, and [scheme://host]
    is skipped when present; a host with an opening bracket and no closing
    one is refused, as [urlparse] refuses it. *)
Definition demo_urlparse_path (url : string) : result string :=
  let no_tail :=
    take_until (λ c, Ascii.eqb c "?" || Ascii.eqb c "#") url in
  match index 0 "://" no_tail with
  | Some n =>
      let rest := substring (n + 3) (String.length no_tail) no_tail in
      let host := take_until (λ c, Ascii.eqb c "/") rest in
      if Str.has_char "[" host && negb (Str.has_char "]" host)
      then Raise (Exn "ValueError" "Invalid IPv6 URL")
      else Ok (drop_until (λ c, Ascii.eqb c "/") rest)
  | None => Ok no_tail
  end.

Definition in_list (s : string) (l : list string) : bool :=
  existsb (String.eqb s) l.

#[local] Instance scripted (sc : Script) : Collaborators World nat := {
  requests_get url stream w :=
    if stream then
      match url with
      | JStr u =>
          if in_list u (sc_bad_urls sc)
          then (Raise (Exn "ConnectionError" "connection refused"), w)
          else (Ok {| status_code := 200; content := u |}, w)
      | _ => (Raise (Exn "MissingSchema" "Invalid URL"), w)
      end
    else (sc_dataset sc, w);
  open_w p w := (Ok tt, w ++ [path_str p]);
  write_stream p r w := (Ok tt, w);
  urlparse_path := demo_urlparse_path;
  py_repr v := "<" +:+ type_name v +:+ ">";
  mkdir p w := (Ok tt, w);
  actor_call ri w := (sc_run sc, w);
  json_loads b := sc_posts sc;
  dump_json p v w := (Ok tt, w);
  dump_records p l w := (Ok tt, w);
  read_bytes p w := (Ok (path_str p), w);
  face_detection img w :=
    if in_list img (sc_bad_images sc)
    then (Raise (Exn "GoogleAPICallError" "service unavailable"), w)
    else (Ok [{| joy_likelihood := VERY_LIKELY;
                 sorrow_likelihood := VERY_UNLIKELY;
                 anger_likelihood := VERY_UNLIKELY;
                 surprise_likelihood := POSSIBLE;
                 detection_confidence := 97 |}], w);
  label_detection img w := (Ok [{| description := "Sky"; score := 88 |}], w);
  safe_search_detection img w :=
    (Ok {| adult := VERY_UNLIKELY; violence := UNLIKELY; racy := UNKNOWN |},
     w) }.

Definition dict (l : list (string * json)) : json := JObj (list_to_map l).

(** The two posts of the end-to-end scenario. *)
Definition two_posts : json :=
  JArr [ dict [("displayUrl", JStr "a.jpg")];
         dict [("videoUrl", JStr "b.mp4");
               ("sidecarItems",
                JArr [ dict [("displayUrl", JStr "c.jpg")];
                       dict [("videoUrl", JStr "d.mp4")] ])] ].

Definition happy (posts : json) : Script :=
  {| sc_run := Ok (dict [("defaultDatasetId", JStr "ds1")]);
     sc_dataset := Ok {| status_code := 200; content := "[...]" |};
     sc_posts := Ok posts;
     sc_bad_urls := [];
     sc_bad_images := [] |}.

Definition start : state World nat :=
  {| world := []; trace := []; downloaded_images := [] |}.

(** The world in which everything succeeds and the dataset holds the two
    posts of the scenario. *)
Definition happy_world : Collaborators World nat :=
  scripted (happy two_posts).

(** The script of the happy world, except that the vision service refuses
    the second image. *)
Definition second_image_refused : Script :=
  {| sc_run := sc_run (happy two_posts);
     sc_dataset := sc_dataset (happy two_posts);
     sc_posts := Ok two_posts;
     sc_bad_urls := [];
     sc_bad_images :=
       ["instagram_downloads/bob/images/post_2_carousel_1.jpg"] |}.

(** The script of the happy world, except that the download of b.mp4
    breaks. *)
Definition video_unreachable : Script :=
  {| sc_run := sc_run (happy two_posts);
     sc_dataset := sc_dataset (happy two_posts);
     sc_posts := Ok two_posts;
     sc_bad_urls := ["b.mp4"];
     sc_bad_images := [] |}.

(** A console on which the user types [bob] and the clients can be
    built. *)
Definition console_bob : Main.Console World :=
  {| Main.input prompt w := (Ok "bob", w);
     Main.new_scraper token path w := (Ok tt, w) |}.

(** The script in which the call of the scraping actor fails. *)
Definition actor_down : Script :=
  {| sc_run := Raise (Exn "ApifyApiError" "actor run failed");
     sc_dataset := Raise (Exn "ConnectionError" "unreachable");
     sc_posts := Ok (JArr []);
     sc_bad_urls := [];
     sc_bad_images := [] |}.

(** The script of the happy world, except that the body of the dataset
    decodes to [null]. *)
Definition null_dataset : Script :=
  {| sc_run := sc_run (happy two_posts);
     sc_dataset := sc_dataset (happy two_posts);
     sc_posts := Ok JNull;
     sc_bad_urls := [];
     sc_bad_images := [] |}.

(** The happy world behind a server that answers every request for a
    media file with [304 Not Modified] and an empty body. *)
Definition not_modified : Collaborators World nat :=
  let C := scripted (happy two_posts) in
  {| requests_get url stream w :=
       if stream then (Ok {| status_code := 304; content := "" |}, w)
       else @requests_get _ _ C url stream w;
     open_w := @open_w _ _ C;
     write_stream := @write_stream _ _ C;
     urlparse_path := @urlparse_path _ _ C;
     py_repr := @py_repr _ _ C;
     mkdir := @mkdir _ _ C;
     actor_call := @actor_call _ _ C;
     json_loads := @json_loads _ _ C;
     dump_json := @dump_json _ _ C;
     dump_records := @dump_records _ _ C;
     read_bytes := @read_bytes _ _ C;
     face_detection := @face_detection _ _ C;
     label_detection := @label_detection _ _ C;
     safe_search_detection := @safe_search_detection _ _ C |}.

(** The happy world on a disk on which no directory can be made. *)
Definition read_only : Collaborators World nat :=
  let C := scripted (happy two_posts) in
  {| requests_get := @requests_get _ _ C;
     open_w := @open_w _ _ C;
     write_stream := @write_stream _ _ C;
     urlparse_path := @urlparse_path _ _ C;
     py_repr := @py_repr _ _ C;
     mkdir p w := (Raise (Exn "PermissionError" "Permission denied"), w);
     actor_call := @actor_call _ _ C;
     json_loads := @json_loads _ _ C;
     dump_json := @dump_json _ _ C;
     dump_records := @dump_records _ _ C;
     read_bytes := @read_bytes _ _ C;
     face_detection := @face_detection _ _ C;
     label_detection := @label_detection _ _ C;
     safe_search_detection := @safe_search_detection _ _ C |}.

End Demo.

(** * Properties *)

(** ** Strings and paths *)

Module StrFacts.
Import Str.

Lemma has_char_app c a b :
  has_char c (a +:+ b) = has_char c a || has_char c b.
Proof.
  induction a as [|d a IH]; simpl; [done|].
  destruct (Ascii.eqb d c); [done|apply IH].
Qed.

Lemma all_digits_no_char c s :
  is_digit c = false → all_digits s = true → has_char c s = false.
Proof.
  intros Hc. induction s as [|d s IH]; simpl; [done|].
  intros [Hd Hs]%andb_true_iff.
  destruct (Ascii.eqb_spec d c) as [->|_]; [congruence|auto].
Qed.

Lemma uint_digits d : all_digits (NilEmpty.string_of_uint d) = true.
Proof. induction d; simpl; auto. Qed.

Lemma to_uint_nonnil n : Nat.to_uint n ≠ Nil.
Proof.
  rewrite <- (DecimalNat.Unsigned.of_to n) at 1.
  rewrite DecimalNat.Unsigned.to_of. apply DecimalFacts.unorm_nonnil.
Qed.

Lemma str_int_eq n : str_int n = NilEmpty.string_of_uint (Nat.to_uint n).
Proof.
  unfold str_int, NilZero.string_of_uint.
  pose proof (to_uint_nonnil n). by destruct (Nat.to_uint n).
Qed.

Lemma str_int_digits n : all_digits (str_int n) = true.
Proof. rewrite str_int_eq. apply uint_digits. Qed.

Lemma str_int_inj a b : str_int a = str_int b → a = b.
Proof.
  rewrite !str_int_eq. intros H.
  apply DecimalNat.Unsigned.to_uint_inj.
  apply (f_equal NilEmpty.uint_of_string) in H.
  rewrite !NilEmpty.usu in H. by injection H.
Qed.

(** Two texts that begin with digits and go on with a character that is no
    digit agree on the digits and on the rest. *)
Lemma digits_cut s1 s2 c1 c2 r1 r2 :
  all_digits s1 = true → all_digits s2 = true →
  is_digit c1 = false → is_digit c2 = false →
  s1 +:+ String c1 r1 = s2 +:+ String c2 r2 →
  s1 = s2 ∧ String c1 r1 = String c2 r2.
Proof.
  intros H1 H2 Hc1 Hc2. revert s2 H2.
  induction s1 as [|d1 s1 IH]; intros [|d2 s2] H2; simpl in *.
  - done.
  - intros [= -> _]. apply andb_true_iff in H2 as [? _]. congruence.
  - intros [= -> _]. apply andb_true_iff in H1 as [? _]. congruence.
  - intros [= -> Hr].
    apply andb_true_iff in H1 as [_ H1]. apply andb_true_iff in H2 as [_ H2].
    destruct (IH H1 s2 H2 Hr) as [-> ?]. done.
Qed.

Lemma lower_char_dot c : lower_char c = "."%char ↔ c = "."%char.
Proof.
  split; [|by intros ->].
  destruct c as [[] [] [] [] [] [] [] []]; vm_compute; congruence.
Qed.

Lemma lower_char_slash c : lower_char c = "/"%char ↔ c = "/"%char.
Proof.
  split; [|by intros ->].
  destruct c as [[] [] [] [] [] [] [] []]; vm_compute; congruence.
Qed.

Lemma has_slash_lower s : has_char "/" (lower s) = has_char "/" s.
Proof.
  induction s as [|c s IH]; simpl; [done|]. rewrite IH.
  destruct (Ascii.eqb_spec (lower_char c) "/") as [H|H],
    (Ascii.eqb_spec c "/") as [H'|H']; try done.
  - by apply (proj1 (lower_char_slash c)) in H.
  - subst c. by vm_compute in H.
Qed.

Lemma is_ext_lower e : is_ext e = true → is_ext (lower e) = true.
Proof.
  destruct e as [|c r]; simpl; [done|].
  intros [Hc Hr]%andb_true_iff. rewrite has_slash_lower, Hr.
  apply Ascii.eqb_eq in Hc as ->. done.
Qed.

(** What [splitext] gives as the extension is empty or has the shape of
    an extension. *)
Lemma splitext_go_shape seen p :
  splitext_go seen p = "" ∨ is_ext (splitext_go seen p) = true.
Proof.
  revert seen. induction p as [|c r IH]; intros seen; simpl; [by left|].
  destruct (Ascii.eqb_spec c "/") as [->|Hs]; [apply IH|].
  destruct (Ascii.eqb_spec c ".") as [->|Hd]; [|apply IH].
  destruct (has_char "/" r) eqn:Hr; simpl; [apply IH|].
  destruct (has_char "." r); [apply IH|].
  destruct seen; [right|by left]. simpl. by rewrite Hr.
Qed.

Lemma is_ext_nonempty e : is_ext e = true → e ≠ "".
Proof. by destruct e. Qed.

Lemma split_no_sep sep s : has_char sep s = false → split sep s = [s].
Proof.
  induction s as [|c s IH]; simpl; [done|].
  destruct (Ascii.eqb c sep); [done|]. intros H. by rewrite (IH H).
Qed.

Lemma parse_parts_single s :
  has_char "/" s = false → s ≠ "" → s ≠ "." → parse_parts s = [s].
Proof.
  intros H ? ?. unfold parse_parts. rewrite (split_no_sep _ _ H).
  rewrite filter_cons_True by done. done.
Qed.

End StrFacts.

(** ** The path planner *)

Module PlannerFacts.
Import Str StrFacts Scraper.

Section WithCollaborators.
Context {W float : Type} `{C : Collaborators W float}.

Lemma get_file_extension_shape url e :
  get_file_extension url = Ok e → is_ext e = true.
Proof.
  unfold get_file_extension. destruct url;
    try (destruct (truthy _); [done|by intros [= <-]]).
  destruct (urlparse_path s) as [path|]; [|done].
  intros [= <-]. destruct (String.eqb_spec (lower (splitext_ext path)) "")
    as [|Hne]; [done|].
  apply is_ext_lower.
  destruct (splitext_go_shape false path) as [H|H]; [|done].
  unfold splitext_ext in Hne. rewrite H in Hne. done.
Qed.

Lemma file_name_no_slash i j e :
  is_ext e = true → has_char "/" (file_name i j e) = false.
Proof.
  intros He. assert (has_char "/" e = false) as Hs.
  { destruct e as [|c r]; [done|]. simpl in *.
    apply andb_true_iff in He as [->%Ascii.eqb_eq Hr].
    simpl. by destruct (has_char "/" r). }
  assert (∀ n, has_char "/" (str_int n) = false) as Hd.
  { intros n. apply all_digits_no_char; [done|apply str_int_digits]. }
  destruct j as [j|]; simpl; rewrite !has_char_app; simpl;
    rewrite ?has_char_app, ?Hd, ?Hs; done.
Qed.

Lemma div_file_name d i j e :
  is_ext e = true → d // file_name i j e = MkPath (parts d ++ [file_name i j e]).
Proof.
  intros He. unfold div. f_equal. f_equal.
  apply parse_parts_single; [by apply file_name_no_slash| |];
    by destruct j.
Qed.

Lemma parent_div_file_name d i j e :
  is_ext e = true → parent (d // file_name i j e) = d.
Proof.
  intros He. rewrite div_file_name by done. unfold parent. simpl.
  rewrite removelast_last. by destruct d.
Qed.

(** The file name tells the indices. *)
Lemma file_name_inj i j e i' j' e' :
  is_ext e = true → is_ext e' = true →
  file_name i j e = file_name i' j' e' → i = i' ∧ j = j'.
Proof.
  intros He He'.
  destruct e as [|c r]; [done|]. destruct e' as [|c' r']; [done|].
  simpl in He, He'.
  apply andb_true_iff in He as [->%Ascii.eqb_eq _].
  apply andb_true_iff in He' as [->%Ascii.eqb_eq _].
  pose proof (str_int_digits i) as Di. pose proof (str_int_digits i') as Di'.
  destruct j as [j|], j' as [j'|]; simpl; intros [= H].
  - apply digits_cut in H as [Hi [= H]]; [|done..].
    pose proof (str_int_digits j) as Dj. pose proof (str_int_digits j') as Dj'.
    apply digits_cut in H as [Hj _]; [|done..].
    by rewrite (str_int_inj _ _ Hi), (str_int_inj _ _ Hj).
  - apply digits_cut in H as [_ [=]]; done.
  - apply digits_cut in H as [_ [=]]; done.
  - apply digits_cut in H as [Hi _]; [|done..].
    by rewrite (str_int_inj _ _ Hi).
Qed.

Lemma base_dir_parts username :
  ∃ l, parts (base_dir_of username) = "instagram_downloads" :: l.
Proof.
  unfold base_dir_of, path_of, parse_parts. simpl.
  rewrite filter_cons_True by done. eauto.
Qed.

Lemma images_dir_parts username :
  parts (images_dir_of username) = parts (base_dir_of username) ++ ["images"].
Proof. done. Qed.

Lemma videos_dir_parts username :
  parts (videos_dir_of username) = parts (base_dir_of username) ++ ["videos"].
Proof. done. Qed.

Lemma images_videos_differ username :
  images_dir_of username ≠ videos_dir_of username.
Proof.
  intros H. apply (f_equal parts) in H.
  rewrite images_dir_parts, videos_dir_parts in H.
  by apply app_inv_head in H.
Qed.

Lemma string_app_assoc (a b c : string) : (a +:+ b) +:+ c = a +:+ b +:+ c.
Proof.
  induction a as [|x a IH]; [done|].
  change (String x ((a +:+ b) +:+ c) = String x (a +:+ b +:+ c)).
  by rewrite IH.
Qed.

Lemma join_snoc sep l n :
  l ≠ [] → join sep (l ++ [n]) = join sep l +:+ sep +:+ n.
Proof.
  induction l as [|x [|y r] IH]; [done|done|]. intros _.
  change (x +:+ sep +:+ join sep ((y :: r) ++ [n])
          = (x +:+ sep +:+ join sep (y :: r)) +:+ sep +:+ n).
  rewrite IH by done. by rewrite !string_app_assoc.
Qed.

Lemma path_str_snoc l n :
  l ≠ [] → path_str (MkPath (l ++ [n])) = join "/" l +:+ "/" +:+ n.
Proof.
  intros Hl. unfold path_str. simpl. rewrite <- join_snoc by done.
  destruct l; [done|]. done.
Qed.

(** The text of a planned path: the base directory, the directory of the
    kind, the file name. *)
Lemma plan_path_str username i j k url p :
  plan username i j k url = Ok p →
  ∃ e, is_ext e = true ∧
    p = MkPath ((parts (base_dir_of username)
                 ++ [match k with Image => "images" | Video => "videos" end])
                ++ [file_name i j e]) ∧
    path_str p =
      join "/" (parts (base_dir_of username)) +:+ "/"
      +:+ match k with Image => "images" | Video => "videos" end
      +:+ "/" +:+ file_name i j e.
Proof.
  unfold plan, plan_in. simpl.
  destruct (get_file_extension url) as [e|] eqn:He; [|done].
  apply get_file_extension_shape in He. intros [= <-]. exists e.
  split; [done|]. rewrite div_file_name by done.
  destruct (base_dir_parts username) as [l Hl].
  assert (parts (media_dir (images_dir_of username) (videos_dir_of username) k)
          = parts (base_dir_of username)
            ++ [match k with Image => "images" | Video => "videos" end]) as ->.
  { by destruct k. }
  split; [done|].
  rewrite path_str_snoc by (rewrite Hl; done).
  rewrite join_snoc by (rewrite Hl; done).
  by rewrite !string_app_assoc.
Qed.

(** Planned paths of different triples differ as texts. *)
Lemma plan_str_distinct username i j k url i' j' k' url' p p' :
  (i, j, k) ≠ (i', j', k') →
  plan username i j k url = Ok p →
  plan username i' j' k' url' = Ok p' →
  path_str p ≠ path_str p'.
Proof.
  intros Hne Hp Hp'.
  apply plan_path_str in Hp as (e & He & -> & Hs).
  apply plan_path_str in Hp' as (e' & He' & -> & Hs').
  rewrite Hs, Hs'. intros H.
  apply (inj (String.app _)) in H. apply (inj (String.app "/")) in H.
  assert (k = k') as <-.
  { destruct k, k'; try done; by vm_compute in H. }
  apply (inj (String.app _)) in H. apply (inj (String.app "/")) in H.
  apply file_name_inj in H as [<- <-]; done.
Qed.

(** C8. The path planner is injective: within one username's run, two
    different triples of post index, carousel index and kind give different
    destination paths, and different file names on disk, whatever the URLs
    the extensions come from. *)
Theorem plan_injective username i j k url i' j' k' url' p p' :
  (i, j, k) ≠ (i', j', k') →
  plan username i j k url = Ok p →
  plan username i' j' k' url' = Ok p' →
  p ≠ p' ∧ path_str p ≠ path_str p'.
Proof.
  intros Hne Hp Hp'.
  pose proof (plan_str_distinct _ _ _ _ _ _ _ _ _ _ _ Hne Hp Hp') as Hstr.
  split; [|exact Hstr].
  intros Heq. apply Hstr. by rewrite Heq.
Qed.

End WithCollaborators.
End PlannerFacts.

(** ** Rules for summaries of effects *)

Module EffectRules.
Import Scraper.

Section WithCollaborators.
Context {W float : Type} `{C : Collaborators W float}.

Local Abbreviation M := (@M W float).
Local Abbreviation post A := (result A → list (event float) → list Path → Prop).

Lemma state_eta (s : state W float) :
  s = {| world := world s; trace := trace s ++ [];
         downloaded_images := downloaded_images s ++ [] |}.
Proof. destruct s. simpl. by rewrite !app_nil_r. Qed.

Lemma effects_mono {A} (m : M A) (Q Q' : post A) :
  effects m Q → (∀ r tr imgs, Q r tr imgs → Q' r tr imgs) → effects m Q'.
Proof.
  intros Hm HQ s. destruct (Hm s) as (r & w & tr & imgs & Heq & H).
  exists r, w, tr, imgs. eauto.
Qed.

Lemma effects_ret {A} (a : A) (Q : post A) :
  Q (Ok a) [] [] → effects (ret a : M A) Q.
Proof.
  intros H s. exists (Ok a), (world s), [], []. split; [|done].
  unfold ret. by rewrite <- state_eta.
Qed.

Lemma effects_lift {A} (r : result A) (Q : post A) :
  Q r [] [] → effects (lift r : M A) Q.
Proof.
  intros H s. exists r, (world s), [], []. split; [|done].
  unfold lift. by rewrite <- state_eta.
Qed.

Lemma effects_emit e (Q : post unit) :
  Q (Ok tt) [e] [] → effects (emit e : M unit) Q.
Proof.
  intros H s. exists (Ok tt), (world s), [e], []. split; [|done].
  unfold emit. by rewrite app_nil_r.
Qed.

Lemma effects_call {A} (op : W → result A * W) (Q : post A) :
  (∀ r, Q r [] []) → effects (call op) Q.
Proof.
  intros H s. unfold call. destruct (op (world s)) as [r w].
  exists r, w, [], []. rewrite !app_nil_r. done.
Qed.

Lemma effects_append_image p (Q : post unit) :
  Q (Ok tt) [] [p] → effects (append_image p : M unit) Q.
Proof.
  intros H s. exists (Ok tt), (world s), [], [p]. split; [|done].
  unfold append_image, bind, get_images, set_images. simpl.
  by rewrite app_nil_r.
Qed.

Lemma effects_bind {A B} (m : M A) (k : A → M B) (Q : post B) :
  effects m (λ r tr imgs,
    match r with
    | Ok a => effects (k a) (λ r' tr' imgs', Q r' (tr ++ tr') (imgs ++ imgs'))
    | Raise e => Q (Raise e) tr imgs
    end) →
  effects (bind m k) Q.
Proof.
  intros Hm s. destruct (Hm s) as (r & w & tr & imgs & Heq & H).
  unfold bind. rewrite Heq. destruct r as [a|e].
  - destruct (H {| world := w; trace := trace s ++ tr;
                   downloaded_images := downloaded_images s ++ imgs |})
      as (r' & w' & tr' & imgs' & Heq' & H').
    exists r', w', (tr ++ tr'), (imgs ++ imgs').
    rewrite Heq'. simpl. by rewrite !app_assoc.
  - exists (Raise e), w, tr, imgs. done.
Qed.

Lemma effects_try_except {A} (m : M A) (h : exn → M A) (Q : post A) :
  effects m (λ r tr imgs,
    match r with
    | Ok a => Q (Ok a) tr imgs
    | Raise e => effects (h e) (λ r' tr' imgs', Q r' (tr ++ tr') (imgs ++ imgs'))
    end) →
  effects (try_except m h) Q.
Proof.
  intros Hm s. destruct (Hm s) as (r & w & tr & imgs & Heq & H).
  unfold try_except. rewrite Heq. destruct r as [a|e].
  - exists (Ok a), w, tr, imgs. done.
  - destruct (H {| world := w; trace := trace s ++ tr;
                   downloaded_images := downloaded_images s ++ imgs |})
      as (r' & w' & tr' & imgs' & Heq' & H').
    exists r', w', (tr ++ tr'), (imgs ++ imgs').
    rewrite Heq'. simpl. by rewrite !app_assoc.
Qed.

(** What a summary says about one run. *)
Lemma effects_run {A} (m : M A) (Q : post A) s :
  effects m Q →
  ∃ tr imgs, trace (m s).2 = trace s ++ tr
    ∧ downloaded_images (m s).2 = downloaded_images s ++ imgs
    ∧ Q (m s).1 tr imgs.
Proof.
  intros Hm. destruct (Hm s) as (r & w & tr & imgs & -> & H).
  exists tr, imgs. done.
Qed.

(** Projections of a trace go through concatenation. *)
Lemma items_app (a b : list (event float)) : items (a ++ b) = items a ++ items b.
Proof. apply omap_app. Qed.

Lemma downloads_app (a b : list (event float)) :
  downloads (a ++ b) = downloads a ++ downloads b.
Proof. apply omap_app. Qed.

Lemma attempts_app (a b : list (event float)) :
  attempts (a ++ b) = attempts a ++ attempts b.
Proof. unfold attempts. by rewrite downloads_app, fmap_app. Qed.

Lemma stored_in_app dir (a b : list (event float)) :
  stored_in dir (a ++ b) = stored_in dir a ++ stored_in dir b.
Proof. unfold stored_in. by rewrite downloads_app, omap_app. Qed.

Lemma dumps_app (a b : list (event float)) : dumps (a ++ b) = dumps a ++ dumps b.
Proof. apply omap_app. Qed.

End WithCollaborators.

#[export] Hint Rewrite @items_app @downloads_app @attempts_app @stored_in_app
  @dumps_app @app_nil_r @app_nil_l : trace.

End EffectRules.

(** ** The post loop *)

Module PostLoop.
Import Str StrFacts Scraper PlannerFacts EffectRules.

(** One step of symbolic execution of a program against a summary. *)
Ltac eff_basic :=
  cbv beta;
  lazymatch goal with
  | |- effects (bind _ _) _ => apply effects_bind
  | |- effects (try_except _ _) _ => apply effects_try_except
  | |- effects (ret _) _ => apply effects_ret
  | |- effects (lift _) _ => apply effects_lift
  | |- effects (emit _) _ => apply effects_emit
  | |- effects (logger_info _) _ => apply effects_emit
  | |- effects (logger_error _) _ => apply effects_emit
  | |- effects (append_image _) _ => apply effects_append_image
  | |- effects (call _) _ => apply effects_call; intros [?|?]
  | |- effects (if ?b then _ else _) _ => destruct b eqn:?
  | |- match Ok _ with Ok _ => _ | Raise _ => _ end => cbv iota
  | |- match Raise _ with Ok _ => _ | Raise _ => _ end => cbv iota
  | |- match ?r with Ok _ => _ | Raise _ => _ end =>
      destruct r eqn:?
  end.

Ltac eff0 := repeat eff_basic.


Section DownloadMedia.
Context {W float : Type} `{C : Collaborators W float}.

(** [download_media] never raises: it answers with a boolean and leaves
    one [Download] event. *)
Lemma download_media_effects url p :
  effects (download_media url p : @M W float bool) (λ r tr imgs,
    ∃ ok, r = Ok ok ∧ items tr = [] ∧ downloads tr = [(url, p, ok)]
      ∧ dumps tr = [] ∧ imgs = []).
Proof.
  unfold download_media, download_body. eff0;
    eexists; autorewrite with trace; done.
Qed.

End DownloadMedia.

(** The steps above, and [download_media] through its summary. *)
Ltac eff_step :=
  cbv beta;
  lazymatch goal with
  | |- effects (bind _ _) _ => apply effects_bind
  | |- effects (try_except _ _) _ => apply effects_try_except
  | |- effects (ret _) _ => apply effects_ret
  | |- effects (lift _) _ => apply effects_lift
  | |- effects (emit _) _ => apply effects_emit
  | |- effects (logger_info _) _ => apply effects_emit
  | |- effects (logger_error _) _ => apply effects_emit
  | |- effects (append_image _) _ => apply effects_append_image
  | |- effects (call _) _ => apply effects_call; intros [?|?]
  | |- effects (download_media _ _) _ =>
      eapply effects_mono; [apply download_media_effects|];
      intros ? ? ? (? & -> & ? & ? & ? & ->)
  | |- effects (if ?b then _ else _) _ => destruct b eqn:?
  | |- match Ok _ with Ok _ => _ | Raise _ => _ end => cbv iota
  | |- match Raise _ with Ok _ => _ | Raise _ => _ end => cbv iota
  | |- match ?r with Ok _ => _ | Raise _ => _ end =>
      destruct r eqn:?
  end.

Ltac eff := repeat eff_step.


Section WithCollaborators.
Context {W float : Type} `{C : Collaborators W float}.

Local Abbreviation M := (@M W float).

Lemma parent_top_path d i e :
  get_file_extension e = Ok d →
  ∀ dir, parent (dir // ("post_" +:+ str_int i +:+ d)) = dir.
Proof.
  intros He%get_file_extension_shape dir.
  by apply (parent_div_file_name dir i None).
Qed.

Lemma parent_item_path d i j e :
  get_file_extension e = Ok d →
  ∀ dir, parent (dir // ("post_" +:+ str_int i +:+ "_carousel_"
                         +:+ str_int j +:+ d)) = dir.
Proof.
  intros He%get_file_extension_shape dir.
  by apply (parent_div_file_name dir i (Some j)).
Qed.

(** A leaf of the symbolic execution of the post loop: the projections of
    the trace are computed from what the steps left as hypotheses. *)
Ltac leaf Hdirs :=
  repeat match goal with
         | H : truthy ?x = _, H' : negb (truthy ?x) = _ |- _ =>
             rewrite H in H'; simpl in H'
         end;
  try discriminate;
  unfold orderly, attempts, stored_in, attempt_of, plan_in;
  autorewrite with trace; simpl;
  repeat match goal with
         | H : items _ = _ |- _ => rewrite H
         | H : downloads _ = _ |- _ => rewrite H
         | H : dumps _ = _ |- _ => rewrite H
         | H : get_file_extension _ = _ |- _ => rewrite H
         end;
  simpl;
  repeat match goal with
         | H : get_file_extension _ = Ok _ |- _ =>
             first [ rewrite (parent_top_path _ _ _ H)
                   | rewrite (parent_item_path _ _ _ _ H) ]
         end;
  rewrite ?bool_decide_true by done;
  rewrite ?bool_decide_false by (intros ?; by apply Hdirs);
  simpl; try done.

Ltac split_truthy :=
  repeat match goal with
         | |- context [truthy ?x] => is_var x; destruct (truthy x) eqn:?
         end.

Lemma process_item_effects images_dir videos_dir i j item :
  images_dir ≠ videos_dir →
  effects (process_item images_dir videos_dir i (j, item) : M unit)
    (λ r tr imgs,
       items tr = (decompose_entry i (Some j) item).1
       ∧ is_ok r = (decompose_entry i (Some j) item).2
       ∧ orderly images_dir videos_dir tr imgs).
Proof.
  intros Hdirs. unfold process_item, decompose_entry, get, getitem.
  destruct item as [| | | | |m]; try (eff; done).
  destruct (m !! "displayUrl") as [d|] eqn:Hd,
    (m !! "videoUrl") as [v|] eqn:Hv; simpl; split_truthy; simpl; eff.
  all: leaf Hdirs.
Qed.

Lemma process_top_level_effects images_dir videos_dir i post :
  images_dir ≠ videos_dir →
  effects (process_top_level images_dir videos_dir i post : M unit)
    (λ r tr imgs,
       items tr = (decompose_entry i None post).1
       ∧ is_ok r = (decompose_entry i None post).2
       ∧ orderly images_dir videos_dir tr imgs).
Proof.
  intros Hdirs. unfold process_top_level, decompose_entry, get, getitem.
  destruct post as [| | | | |m]; try (eff; done).
  destruct (m !! "displayUrl") as [d|] eqn:Hd,
    (m !! "videoUrl") as [v|] eqn:Hv; simpl; split_truthy; simpl; eff.
  all: leaf Hdirs.
Qed.

Lemma orderly_nil images_dir videos_dir :
  orderly images_dir videos_dir ([] : list (event float)) [].
Proof. done. Qed.

Lemma orderly_app images_dir videos_dir (tr1 tr2 : list (event float))
    imgs1 imgs2 :
  orderly images_dir videos_dir tr1 imgs1 →
  orderly images_dir videos_dir tr2 imgs2 →
  orderly images_dir videos_dir (tr1 ++ tr2) (imgs1 ++ imgs2).
Proof.
  intros (A1 & -> & D1) (A2 & -> & D2). unfold orderly.
  autorewrite with trace. rewrite omap_app, A1, A2, D1, D2. done.
Qed.

Lemma orderly_log images_dir videos_dir (tr : list (event float)) imgs lvl msg :
  orderly images_dir videos_dir tr imgs →
  orderly images_dir videos_dir (tr ++ [Log lvl msg]) (imgs ++ []).
Proof. intros H. by apply orderly_app. Qed.

(** The loop over the carousel items stops at the first item that
    raises. *)
Lemma process_items_effects images_dir videos_dir i l :
  images_dir ≠ videos_dir →
  effects (for_each l (process_item images_dir videos_dir i) : M unit)
    (λ r tr imgs,
       items tr = (decompose_items i l).1
       ∧ is_ok r = (decompose_items i l).2
       ∧ orderly images_dir videos_dir tr imgs).
Proof.
  intros Hdirs. induction l as [|[j item] l IH]; simpl.
  { eff. done. }
  apply effects_bind.
  eapply effects_mono; [by apply process_item_effects|].
  intros r tr imgs (Hi & Hr & Ho).
  destruct (decompose_entry i (Some j) item) as [a go]. simpl in *.
  destruct r as [[]|e]; simpl in Hr; subst go.
  - eapply effects_mono; [apply IH|].
    intros r' tr' imgs' (Hi' & Hr' & Ho').
    destruct (decompose_items i l) as [b go']. simpl in *.
    rewrite items_app, Hi, Hi'. auto using orderly_app.
  - done.
Qed.

Lemma process_sidecar_effects images_dir videos_dir i post :
  images_dir ≠ videos_dir →
  effects (process_sidecar images_dir videos_dir i post : M unit)
    (λ r tr imgs,
       items tr = (decompose_sidecar i post).1
       ∧ is_ok r = (decompose_sidecar i post).2
       ∧ orderly images_dir videos_dir tr imgs).
Proof.
  intros Hdirs. unfold process_sidecar, decompose_sidecar, get, getitem.
  destruct post as [| | | | |m]; try (eff; done).
  destruct (m !! "sidecarItems") as [sc|] eqn:Hsc; simpl;
    [|eff; done].
  destruct (truthy sc) eqn:Hsc'; [|eff; done].
  eff; try done. autorewrite with trace.
  by apply process_items_effects.
Qed.

(** The body of the loop over the posts never raises; the items it takes
    up are the decomposition of the post. *)
Lemma process_post_effects images_dir videos_dir i post :
  images_dir ≠ videos_dir →
  effects (process_post images_dir videos_dir (i, post) : M unit)
    (λ r tr imgs,
       r = Ok tt ∧ items tr = decompose i post
       ∧ orderly images_dir videos_dir tr imgs).
Proof.
  intros Hdirs. unfold process_post, decompose.
  apply effects_try_except, effects_bind.
  eapply effects_mono; [by apply process_top_level_effects|].
  intros r tr imgs (Hi & Hr & Ho).
  destruct (decompose_entry i None post) as [a go]. simpl in *.
  destruct r as [[]|e]; simpl in Hr; subst go.
  - eapply effects_mono; [by apply process_sidecar_effects|].
    intros r' tr' imgs' (Hi' & Hr' & Ho').
    destruct r' as [[]|e'].
    + rewrite items_app, Hi, Hi'. auto using orderly_app.
    + eff. rewrite !items_app, Hi, Hi'. simpl. rewrite app_nil_r.
      auto using orderly_app, orderly_log.
  - eff. rewrite items_app, Hi. simpl. rewrite app_nil_r.
    auto using orderly_log.
Qed.

Lemma process_posts_loop_effects images_dir videos_dir l k :
  images_dir ≠ videos_dir →
  effects (for_each (enumerate l k) (process_post images_dir videos_dir)
           : M unit)
    (λ r tr imgs,
       r = Ok tt
       ∧ items tr = mbind (M := list) (λ '(i, post), decompose i post)
                      (enumerate l k)
       ∧ orderly images_dir videos_dir tr imgs).
Proof.
  intros Hdirs. revert k. induction l as [|post l IH]; intros k; simpl.
  { eff. done. }
  apply effects_bind.
  eapply effects_mono; [by apply process_post_effects|].
  intros r tr imgs (-> & Hi & Ho).
  eapply effects_mono; [apply IH|].
  intros r' tr' imgs' (-> & Hi' & Ho').
  rewrite items_app, Hi, Hi'. auto using orderly_app.
Qed.

Lemma stored_in_no_attempt dir (tr : list (event float)) :
  attempts tr = [] → stored_in dir tr = [].
Proof.
  unfold attempts, stored_in. intros H%fmap_nil_inv. by rewrite H.
Qed.

Lemma stored_in_elsewhere dir (tr : list (event float)) u p :
  attempts tr = [(u, p)] → parent p ≠ dir → stored_in dir tr = [].
Proof.
  unfold attempts, stored_in. intros H Hp.
  destruct (downloads tr) as [|[[u' p'] ok] [|]]; simplify_eq/=.
  rewrite bool_decide_false by done. by rewrite andb_false_r.
Qed.

(** C1. A post whose [videoUrl] is set: the work on the post itself takes
    up exactly one media item, the video, whether or not [displayUrl] is
    set too.  No image is taken up and none is appended to
    [downloaded_images]; the only call of [download_media] is the one for
    the video, made when the extension of its URL can be derived. *)
Theorem top_level_video_wins username i post v s :
  get post "videoUrl" = Ok v → truthy v = true →
  let images_dir := images_dir_of username in
  let videos_dir := videos_dir_of username in
  let s' := (process_top_level images_dir videos_dir i post s).2 in
  ∃ tr, trace s' = trace s ++ tr
    ∧ items tr = [{| sourceUrl := v; kind := Video; postIndex := i;
                     carouselIndex := None |}]
    ∧ attempts tr =
        match get_file_extension v with
        | Ok ext => [(v, videos_dir // ("post_" +:+ str_int i +:+ ext))]
        | Raise _ => []
        end
    ∧ stored_in images_dir tr = []
    ∧ downloaded_images s' = downloaded_images s.
Proof.
  intros Hv Tv images_dir videos_dir s'.
  destruct (effects_run
    (process_top_level images_dir videos_dir i post) _ s
    (process_top_level_effects images_dir videos_dir i post
       (images_videos_differ username)))
    as (tr & imgs & Htr & Himgs & Hi & _ & Ha & -> & _).
  fold s' in Htr, Himgs. exists tr. split; [done|].
  assert (items tr = [{| sourceUrl := v; kind := Video; postIndex := i;
                         carouselIndex := None |}]) as Hitems.
  { rewrite Hi. unfold decompose_entry. rewrite Hv.
    destruct post; try done. simpl. by rewrite Tv. }
  split; [done|].
  assert (attempts tr =
            match get_file_extension v with
            | Ok ext => [(v, videos_dir // ("post_" +:+ str_int i +:+ ext))]
            | Raise _ => []
            end) as Hatt.
  { rewrite Ha, Hitems. simpl. unfold attempt_of, plan_in. simpl.
    by destruct (get_file_extension v). }
  split; [done|].
  assert (stored_in images_dir tr = []) as Hst.
  { destruct (get_file_extension v) as [ext|] eqn:He.
    - eapply stored_in_elsewhere; [done|].
      rewrite (parent_top_path _ _ _ He).
      intros H. by apply (images_videos_differ username).
    - by apply stored_in_no_attempt. }
  split; [done|]. rewrite Himgs, Hst. by rewrite app_nil_r.
Qed.

(** C2. A carousel item leads to at most one media item and at most one
    call of [download_media]; for an item that is a dictionary the media
    item is the video when [videoUrl] is set, else the image when
    [displayUrl] is set, else none, although the program tests the
    display URL first. *)
Theorem carousel_item_video_first username i j item s :
  let images_dir := images_dir_of username in
  let videos_dir := videos_dir_of username in
  let s' := (process_item images_dir videos_dir i (j, item) s).2 in
  ∃ tr, trace s' = trace s ++ tr
    ∧ length (items tr) ≤ 1
    ∧ attempts tr = omap (attempt_of images_dir videos_dir) (items tr)
    ∧ length (attempts tr) ≤ 1
    ∧ ∀ v d, get item "videoUrl" = Ok v → get item "displayUrl" = Ok d →
        items tr =
          if truthy v then
            [{| sourceUrl := v; kind := Video; postIndex := i;
                carouselIndex := Some j |}]
          else if truthy d then
            [{| sourceUrl := d; kind := Image; postIndex := i;
                carouselIndex := Some j |}]
          else [].
Proof.
  intros images_dir videos_dir s'.
  destruct (effects_run
    (process_item images_dir videos_dir i (j, item)) _ s
    (process_item_effects images_dir videos_dir i j item
       (images_videos_differ username)))
    as (tr & imgs & Htr & Himgs & Hi & _ & Ha & -> & _).
  fold s' in Htr. exists tr. split; [done|].
  assert (length (items tr) ≤ 1) as Hlen.
  { rewrite Hi. unfold decompose_entry.
    destruct (get item "videoUrl"), (get item "displayUrl"); simpl; try lia.
    repeat case_match; simpl; lia. }
  split; [done|]. split; [done|]. split.
  { rewrite Ha. destruct (items tr) as [|m [|]]; simpl in *; [lia| |lia].
    destruct (attempt_of _ _ m); simpl; lia. }
  intros v d Hv Hd. rewrite Hi. unfold decompose_entry. rewrite Hv, Hd.
  by repeat case_match.
Qed.

(** Lookups in a dictionary whose field [k] holds the empty string, and in
    the dictionary without the field. *)
Lemma get_empty_field (m : gmap string json) k k' :
  get (JObj (<[k := JStr ""]> m)) k'
  = if decide (k = k') then Ok (JStr "") else get (JObj (delete k m)) k'.
Proof.
  unfold get. case_decide as Hk.
  - subst. by rewrite lookup_insert_eq.
  - by rewrite lookup_insert_ne, lookup_delete_ne.
Qed.

Lemma get_deleted_field (m : gmap string json) k :
  get (JObj (delete k m)) k = Ok JNull.
Proof. unfold get. by rewrite lookup_delete_eq. Qed.

Lemma getitem_empty_field (m : gmap string json) k k' :
  k ≠ k' →
  getitem (JObj (<[k := JStr ""]> m)) k' = getitem (JObj (delete k m)) k'.
Proof.
  intros Hk. unfold getitem. by rewrite lookup_insert_ne, lookup_delete_ne.
Qed.

Lemma iter_sidecar_empty_field (m : gmap string json) k :
  k ≠ "sidecarItems" →
  (<[k := JStr ""]> m) !! "sidecarItems" = delete k m !! "sidecarItems".
Proof. intros Hk. by rewrite lookup_insert_ne, lookup_delete_ne. Qed.

Lemma process_item_empty_field images_dir videos_dir i j m k s :
  k = "videoUrl" ∨ k = "displayUrl" →
  process_item images_dir videos_dir i (j, JObj (<[k := JStr ""]> m)) s
  = process_item images_dir videos_dir i (j, JObj (delete k m)) s.
Proof.
  intros [-> | ->]; unfold process_item;
    rewrite !get_empty_field, ?get_deleted_field;
    repeat case_decide; try done;
    rewrite ?(getitem_empty_field _ _ "videoUrl") by done;
    rewrite ?(getitem_empty_field _ _ "displayUrl") by done;
    cbv beta iota delta [bind lift ret truthy negb String.eqb];
    reflexivity.
Qed.

Lemma process_top_level_empty_field images_dir videos_dir i m k s :
  k = "videoUrl" ∨ k = "displayUrl" →
  process_top_level images_dir videos_dir i (JObj (<[k := JStr ""]> m)) s
  = process_top_level images_dir videos_dir i (JObj (delete k m)) s.
Proof.
  intros [-> | ->]; unfold process_top_level;
    rewrite !get_empty_field, ?get_deleted_field;
    repeat case_decide; try done;
    rewrite ?(getitem_empty_field _ _ "videoUrl") by done;
    rewrite ?(getitem_empty_field _ _ "displayUrl") by done;
    cbv beta iota delta [bind lift ret truthy negb String.eqb];
    reflexivity.
Qed.

Lemma process_sidecar_empty_field images_dir videos_dir i m k s :
  k = "videoUrl" ∨ k = "displayUrl" →
  process_sidecar images_dir videos_dir i (JObj (<[k := JStr ""]> m)) s
  = process_sidecar images_dir videos_dir i (JObj (delete k m)) s.
Proof.
  intros Hk. unfold process_sidecar, get, getitem.
  rewrite iter_sidecar_empty_field; [done|]. by destruct Hk as [-> | ->].
Qed.

Lemma process_post_empty_field images_dir videos_dir i m k s :
  k = "videoUrl" ∨ k = "displayUrl" →
  process_post images_dir videos_dir (i, JObj (<[k := JStr ""]> m)) s
  = process_post images_dir videos_dir (i, JObj (delete k m)) s.
Proof.
  intros Hk. unfold process_post, try_except, bind.
  rewrite process_top_level_empty_field by done.
  destruct (process_top_level _ _ _ _ s) as [[[]|e] s1]; [|done].
  by rewrite process_sidecar_empty_field.
Qed.

(** Every item the decomposition names has a URL that is true. *)
Lemma decompose_entry_truthy i j entry :
  Forall (λ it, truthy (sourceUrl it) = true) (decompose_entry i j entry).1.
Proof.
  unfold decompose_entry.
  destruct (get entry "videoUrl") as [v|], (get entry "displayUrl") as [d|];
    simpl; try done.
  destruct (truthy v) eqn:Tv; [by repeat constructor|].
  destruct (truthy d) eqn:Td; by repeat constructor.
Qed.

Lemma decompose_items_truthy i l :
  Forall (λ it, truthy (sourceUrl it) = true) (decompose_items i l).1.
Proof.
  induction l as [|[j item] l IH]; simpl; [done|].
  pose proof (decompose_entry_truthy i (Some j) item) as H.
  destruct (decompose_entry i (Some j) item) as [a []]; [|done].
  destruct (decompose_items i l) as [b go]. simpl in *.
  by apply Forall_app.
Qed.

Lemma decompose_truthy i post :
  Forall (λ it, truthy (sourceUrl it) = true) (decompose i post).
Proof.
  unfold decompose.
  pose proof (decompose_entry_truthy i None post) as H.
  destruct (decompose_entry i None post) as [a []]; [|done].
  apply Forall_app. split; [done|]. unfold decompose_sidecar.
  destruct (get post "sidecarItems") as [sc|]; [|done].
  destruct (truthy sc); [|done].
  destruct (iter sc); [|done]. apply decompose_items_truthy.
Qed.

Lemma decompose_from_truthy l k :
  Forall (λ it, truthy (sourceUrl it) = true)
    (mbind (M := list) (λ '(i, post), decompose i post) (enumerate l k)).
Proof.
  revert k. induction l as [|post l IH]; intros k; [done|].
  simpl. apply Forall_app. split; [apply decompose_truthy|apply IH].
Qed.

(** C9. A [videoUrl] or [displayUrl] that is present and holds the empty
    string counts as absent: the work on a post, and on a carousel item,
    is the same as on the dictionary without the field.  The URL of every
    media item the loop over the posts takes up is true, so none comes
    from an empty string. *)
Theorem empty_url_is_absent username i j m k s :
  k = "videoUrl" ∨ k = "displayUrl" →
  let images_dir := images_dir_of username in
  let videos_dir := videos_dir_of username in
  process_post images_dir videos_dir (i, JObj (<[k := JStr ""]> m)) s
  = process_post images_dir videos_dir (i, JObj (delete k m)) s
  ∧ process_item images_dir videos_dir i (j, JObj (<[k := JStr ""]> m)) s
    = process_item images_dir videos_dir i (j, JObj (delete k m)) s
  ∧ ∀ post_list,
      ∃ tr, trace (for_each (enumerate post_list 1)
                     (process_post images_dir videos_dir) s).2
            = trace s ++ tr
        ∧ Forall (λ it, truthy (sourceUrl it) = true
                        ∧ sourceUrl it ≠ JStr "") (items tr).
Proof.
  intros Hk images_dir videos_dir.
  split; [by apply process_post_empty_field|].
  split; [by apply process_item_empty_field|].
  intros post_list.
  destruct (effects_run
    (for_each (enumerate post_list 1) (process_post images_dir videos_dir))
    _ s
    (process_posts_loop_effects images_dir videos_dir post_list 1
       (images_videos_differ username)))
    as (tr & imgs & Htr & _ & _ & Hi & _).
  exists tr. split; [done|]. rewrite Hi.
  eapply Forall_impl; [apply decompose_from_truthy|].
  intros it Hit. simpl in Hit. split; [done|].
  intros Heq. by rewrite Heq in Hit.
Qed.

Lemma download_body_true url p s b s1 :
  download_body url p s = (Ok b, s1) → b = true.
Proof.
  unfold download_body, bind, call, lift, ret.
  destruct (requests_get url true (world s)) as [[r|] w1]; [|done]. simpl.
  destruct (raise_for_status r); [|done].
  destruct (open_w p w1) as [[|] w2]; [|done]. simpl.
  destruct (write_stream p r w2) as [[|] w3]; [|done].
  by intros [= <- _].
Qed.

Lemma raise_for_status_error r :
  (400 ≤ status_code r < 600)%nat → ∃ e, raise_for_status r = Raise e.
Proof.
  intros [H1 H2]. unfold raise_for_status.
  apply Nat.leb_le in H1 as ->. apply Nat.ltb_lt in H2 as ->. simpl. eauto.
Qed.

Lemma raise_for_status_passes r :
  ¬ (400 ≤ status_code r < 600)%nat → raise_for_status r = Ok tt.
Proof.
  intros H. unfold raise_for_status.
  destruct (400 <=? status_code r)%nat eqn:H1; [|done].
  destruct (status_code r <? 600)%nat eqn:H2; [|done].
  apply Nat.leb_le in H1. apply Nat.ltb_lt in H2. lia.
Qed.

(** C7. [download_media] never raises: it answers true when its [try]
    block ran to the end and false otherwise, in particular when the
    request raises, when the status code is an error code, 400 to 599,
    and when opening or writing the file raises.  Any other status code
    is no failure: the file is written and the answer is true.  The calls
    of [download_media] a run of the post loop makes are fixed by the
    posts alone: they are the ones the decomposition of the posts leads
    to, whatever the answers of the earlier calls were. *)
Theorem failed_download_goes_on username url save_path post_list s :
  let images_dir := images_dir_of username in
  let videos_dir := videos_dir_of username in
  (∃ ok s', download_media url save_path s = (Ok ok, s')
     ∧ ok = is_ok (download_body url save_path s).1)
  ∧ (∀ e w, requests_get url true (world s) = (Raise e, w) →
       (download_media url save_path s).1 = Ok false)
  ∧ (∀ r w, requests_get url true (world s) = (Ok r, w) →
       (400 ≤ status_code r < 600)%nat →
       (download_media url save_path s).1 = Ok false)
  ∧ (∀ r w w1 w2, requests_get url true (world s) = (Ok r, w) →
       ¬ (400 ≤ status_code r < 600)%nat →
       open_w save_path w = (Ok tt, w1) →
       write_stream save_path r w1 = (Ok tt, w2) →
       (download_media url save_path s).1 = Ok true)
  ∧ (∀ r w e w', requests_get url true (world s) = (Ok r, w) →
       raise_for_status r = Ok tt →
       open_w save_path w = (Raise e, w') →
       (download_media url save_path s).1 = Ok false)
  ∧ (∀ r w w1 e w2, requests_get url true (world s) = (Ok r, w) →
       raise_for_status r = Ok tt →
       open_w save_path w = (Ok tt, w1) →
       write_stream save_path r w1 = (Raise e, w2) →
       (download_media url save_path s).1 = Ok false)
  ∧ (∃ tr, trace (for_each (enumerate post_list 1)
                    (process_post images_dir videos_dir) s).2
           = trace s ++ tr
       ∧ attempts tr
         = omap (attempt_of images_dir videos_dir) (decompose_all post_list)).
Proof.
  intros images_dir videos_dir. split_and!.
  - unfold download_media, try_except, bind.
    destruct (download_body url save_path s) as [[b|e] s1] eqn:Hb; simpl.
    + apply download_body_true in Hb as ->. eauto.
    + eauto.
  - intros e w H. unfold download_media, download_body, try_except, bind, call.
    by rewrite H.
  - intros r w H [e He]%raise_for_status_error.
    unfold download_media, download_body, try_except, bind, call, lift.
    rewrite H. simpl. by rewrite He.
  - intros r w w1 w2 H Hr Ho Hw.
    apply raise_for_status_passes in Hr.
    unfold download_media, download_body, try_except, bind, call, lift.
    rewrite H. simpl. rewrite Hr, Ho. simpl. rewrite Hw. done.
  - intros r w e w' H Hr Ho.
    unfold download_media, download_body, try_except, bind, call, lift.
    rewrite H. simpl. rewrite Hr, Ho. done.
  - intros r w w1 e w2 H Hr Ho Hw.
    unfold download_media, download_body, try_except, bind, call, lift.
    rewrite H. simpl. rewrite Hr, Ho. simpl. rewrite Hw. done.
  - destruct (effects_run
      (for_each (enumerate post_list 1) (process_post images_dir videos_dir))
      _ s
      (process_posts_loop_effects images_dir videos_dir post_list 1
         (images_videos_differ username)))
      as (tr & imgs & Htr & _ & _ & Hi & Ha & _).
    exists tr. split; [done|]. by rewrite Ha, Hi.
Qed.

End WithCollaborators.
End PostLoop.

(** ** The image annotator *)

Module Annotator.
Import Scraper EffectRules.

Section WithCollaborators.
Context {W float : Type} `{C : Collaborators W float}.

Local Abbreviation M := (@M W float).

Lemma vision_analysis_record p s a s1 :
  vision_analysis p s = (Ok a, s1) →
  record_path a = path_str p ∧ is_error a = false.
Proof.
  unfold vision_analysis, bind, call, ret.
  destruct (read_bytes p (world s)) as [[img|] w1]; [|done]. simpl.
  destruct (face_detection img w1) as [[faces|] w2]; [|done]. simpl.
  destruct (label_detection img w2) as [[labels|] w3]; [|done]. simpl.
  destruct (safe_search_detection img w3) as [[safe|] w4]; [|done].
  by intros [= <- _].
Qed.

(** One turn of the loop appends one record, whatever the list so far:
    the analysis, or the error record of the image when the analysis
    raised. *)
Lemma analyze_image_turn p s :
  ∃ r s1,
    (∀ results, analyze_image results p s = (Ok (results ++ [r]), s1))
    ∧ record_path r = path_str p
    ∧ match (vision_analysis p s).1 with
      | Ok a => r = a ∧ is_error r = false
      | Raise e => r = AnalysisError (path_str p) (exn_str e)
      end.
Proof.
  unfold analyze_image, try_except, bind.
  destruct (vision_analysis p s) as [[a|e] s0] eqn:Hv; simpl.
  - apply vision_analysis_record in Hv as [Hp He].
    eexists a, _. split_and!; [intros results; reflexivity|done..].
  - eexists (AnalysisError (path_str p) (exn_str e)), _.
    split_and!; [intros results; reflexivity|done..].
Qed.

Lemma analyze_loop_results paths :
  ∀ s, ∃ recs s',
    (∀ results, analyze_loop results paths s = (Ok (results ++ recs), s'))
    ∧ record_path <$> recs = path_str <$> paths.
Proof.
  induction paths as [|p rest IH]; intros s.
  - exists [], s. split; [|done]. intros results. simpl.
    by rewrite app_nil_r.
  - destruct (analyze_image_turn p s) as (r & s1 & Hturn & Hp & _).
    destruct (IH s1) as (recs & s' & Hloop & Hpaths).
    exists (r :: recs), s'. split.
    + intros results. simpl. unfold bind. rewrite Hturn, Hloop.
      by rewrite <- app_assoc.
    + by rewrite !fmap_cons, Hp, Hpaths.
Qed.

Lemma analyze_images_app l1 l2 s r1 s1 r2 s2 :
  analyze_images l1 s = (Ok r1, s1) →
  analyze_images l2 s1 = (Ok r2, s2) →
  analyze_images (l1 ++ l2) s = (Ok (r1 ++ r2), s2).
Proof.
  unfold analyze_images. revert s r1.
  induction l1 as [|p l1 IH]; intros s r1 H1 H2.
  - unfold analyze_loop at 1, ret in H1. by simplify_eq/=.
  - simpl in *. unfold bind in *.
    destruct (analyze_image_turn p s) as (r & s0 & Hturn & _).
    rewrite Hturn in *. simpl in *.
    destruct (analyze_loop_results l1 s0) as (recs & s' & Hloop & _).
    rewrite Hloop in H1. simplify_eq.
    destruct (analyze_loop_results (l1 ++ l2) s0) as (recs' & s'' & Hloop' & _).
    rewrite Hloop'. specialize (IH s0 recs).
    rewrite (Hloop []), (Hloop' []) in IH. simpl in IH.
    specialize (IH eq_refl H2). by simplify_eq.
Qed.

(** C4. [analyze_images] gives one record for each path, in the order of
    the paths, and never raises.  Each image is judged on its own: the
    record of an image whose analysis raises is the error record of that
    image, and the images before and after it get the records they get
    when the loop is run on them alone from the state it has reached. *)
Theorem analyze_images_one_record_each paths s :
  ∃ recs s', analyze_images paths s = (Ok recs, s')
    ∧ length recs = length paths
    ∧ record_path <$> recs = path_str <$> paths
    ∧ ∀ before p after, paths = before ++ p :: after →
        ∃ recs1 s1 r s2 recs2,
          analyze_images before s = (Ok recs1, s1)
          ∧ analyze_images [p] s1 = (Ok [r], s2)
          ∧ analyze_images after s2 = (Ok recs2, s')
          ∧ recs = recs1 ++ r :: recs2
          ∧ length recs1 = length before
          ∧ match (vision_analysis p s1).1 with
            | Ok a => r = a ∧ is_error r = false
            | Raise e => r = AnalysisError (path_str p) (exn_str e)
            end.
Proof.
  destruct (analyze_loop_results paths s) as (recs & s' & Hloop & Hpaths).
  exists recs, s'. split; [apply (Hloop [])|].
  split. { by rewrite <- (length_fmap record_path), Hpaths, length_fmap. }
  split; [done|].
  intros before p after ->.
  destruct (analyze_loop_results before s) as (recs1 & s1 & H1 & Hp1).
  destruct (analyze_image_turn p s1) as (r & s2 & Hturn & _ & Hr).
  destruct (analyze_loop_results after s2) as (recs2 & s3 & H2 & _).
  assert (analyze_images [p] s1 = (Ok [r], s2)) as Hone.
  { unfold analyze_images. simpl. unfold bind. by rewrite (Hturn []). }
  pose proof (analyze_images_app [p] after s1 [r] s2 recs2 s3 Hone (H2 []))
    as Htail.
  pose proof (analyze_images_app before ([p] ++ after) s recs1 s1 _ s3
                (H1 []) Htail) as Hall.
  unfold analyze_images in Hall. simpl in Hall.
  rewrite (Hloop []) in Hall. simplify_eq.
  exists recs1, s1, r, s2, recs2. split_and!; try done.
  - apply (H1 []).
  - apply (H2 []).
  - by rewrite <- (length_fmap record_path), Hp1, length_fmap.
Qed.

End WithCollaborators.
End Annotator.

(** ** The pipeline *)

Module Pipeline.
Import Str StrFacts Scraper PlannerFacts EffectRules PostLoop Annotator.

Section WithCollaborators.
Context {W float : Type} `{C : Collaborators W float}.

Local Abbreviation M := (@M W float).

(** The annotator only logs. *)
Lemma analyze_loop_effects paths results :
  effects (analyze_loop results paths : M _) (λ r tr imgs,
    items tr = [] ∧ downloads tr = [] ∧ dumps tr = [] ∧ imgs = []).
Proof.
  revert results. induction paths as [|p rest IH]; intros results; simpl.
  { eff. done. }
  apply effects_bind. unfold analyze_image, vision_analysis.
  eff; try (eapply effects_mono; [apply IH|];
            intros ? ? ? (Hi & Hd & Hdu & ->));
    autorewrite with trace; simpl; rewrite ?Hi, ?Hd, ?Hdu; done.
Qed.

Lemma analyze_images_quiet paths s :
  ∃ tr, trace (analyze_images paths s).2 = trace s ++ tr
    ∧ items tr = [] ∧ downloads tr = [] ∧ dumps tr = []
    ∧ downloaded_images (analyze_images paths s).2 = downloaded_images s.
Proof.
  destruct (effects_run (analyze_images paths) _ s
              (analyze_loop_effects paths []))
    as (tr & imgs & Htr & Himgs & Hi & Hd & Hdu & ->).
  exists tr. rewrite app_nil_r in Himgs. done.
Qed.

(** The loop over the posts, from the moment [downloaded_images] is
    emptied. *)
Lemma process_posts_run images_dir videos_dir posts s :
  images_dir ≠ videos_dir →
  match iter posts with
  | Ok post_list =>
      ∃ tr, (process_posts images_dir videos_dir posts s).1 = Ok tt
        ∧ trace (process_posts images_dir videos_dir posts s).2
          = trace s ++ tr
        ∧ items tr = decompose_all post_list
        ∧ orderly images_dir videos_dir tr
            (downloaded_images
               (process_posts images_dir videos_dir posts s).2)
  | Raise e =>
      (process_posts images_dir videos_dir posts s).1 = Raise e
      ∧ trace (process_posts images_dir videos_dir posts s).2 = trace s
  end.
Proof.
  intros Hdirs. unfold process_posts, bind, set_images, lift.
  destruct (iter posts) as [l|e]; [|done].
  destruct (effects_run
    (for_each (enumerate l 1) (process_post images_dir videos_dir)) _
    {| world := world s; trace := trace s; downloaded_images := [] |}
    (process_posts_loop_effects images_dir videos_dir l 1 Hdirs))
    as (tr & imgs & Htr & Himgs & Hr & Hi & Ho).
  exists tr. simpl in *. rewrite Himgs. done.
Qed.

(** A run of [fetch_posts] that returns: the value it returns as [posts]
    is what the body of the dataset decodes to, it is the value dumped as
    metadata, and the events after the dump are those of the post loop. *)
Lemma fetch_posts_ok base_dir images_dir videos_dir run_input s mp posts s1 :
  images_dir ≠ videos_dir →
  fetch_posts base_dir images_dir videos_dir run_input s
    = (Ok (mp, posts), s1) →
  mp = base_dir // "metadata.json"
  ∧ ∃ post_list tr,
      iter posts = Ok post_list
      ∧ trace s1 = trace s ++ DumpMetadata mp posts :: tr
      ∧ items tr = decompose_all post_list
      ∧ orderly images_dir videos_dir tr (downloaded_images s1)
      ∧ ∃ url w response w',
          requests_get (JStr url) false w = (Ok response, w')
          ∧ json_loads (content response) = Ok posts.
Proof.
  intros Hdirs. unfold fetch_posts, bind, call, lift, emit.
  destruct (actor_call run_input (world s)) as [[run|] w1]; [|done].
  simpl. destruct (getitem run "defaultDatasetId") as [id|]; [|done].
  destruct (requests_get _ false w1) as [[resp|] w2] eqn:Hget; [|done].
  simpl. destruct (raise_for_status resp); [|done].
  destruct (open_w _ w2) as [[[]|] w3]; [|done]. simpl.
  destruct (json_loads (content resp)) as [posts'|] eqn:Hloads; [|done].
  destruct (dump_json _ posts' w3) as [[[]|] w4]; [|done]. simpl.
  match goal with
  | |- context [process_posts images_dir videos_dir posts' ?s0] =>
      pose proof (process_posts_run images_dir videos_dir posts' s0 Hdirs)
        as Hrun;
      destruct (process_posts images_dir videos_dir posts' s0)
        as [[[]|e] s5]; [|done]
  end.
  unfold ret. intros [= <- <- <-]. split; [done|].
  destruct (iter posts') as [l|e]; [|by destruct Hrun].
  destruct Hrun as (tr & _ & Htr & Hi & Ho). simpl in *.
  exists l, tr. split_and!; try done.
  - rewrite Htr. by rewrite <- app_assoc.
  - eexists _, _, _, _. split; [exact Hget|done].
Qed.

(** The last stretch of the function: after the annotator, which always
    returns, only the two steps that write the results can raise (and
    [len], which cannot where [posts] was iterated over). *)
Lemma annotate_and_save_run base_dir mp posts s1 :
  ∃ recs s2,
    analyze_images (downloaded_images s1) s1 = (Ok recs, s2)
    ∧ record_path <$> recs = path_str <$> downloaded_images s1
    ∧ annotate_and_save base_dir mp posts s1 =
        let ap := base_dir // "analysis_results.json" in
        let at_world w :=
          {| world := w; trace := trace s2;
             downloaded_images := downloaded_images s2 |} in
        match open_w ap (world s2) with
        | (Raise e, w) => (Raise e, at_world w)
        | (Ok _, w) =>
            match dump_records ap recs w with
            | (Raise e, w') => (Raise e, at_world w')
            | (Ok _, w') =>
                let s3 :=
                  {| world := w'; trace := trace s2 ++ [DumpAnalysis ap recs];
                     downloaded_images := downloaded_images s2 |} in
                match len posts with
                | Ok n =>
                    (Ok (Success (path_str base_dir) n (length recs)
                           (path_str mp) (path_str ap)), s3)
                | Raise e => (Raise e, s3)
                end
            end
        end.
Proof.
  destruct (analyze_loop_results (downloaded_images s1) s1)
    as (recs & s2 & Hloop & Hpaths).
  pose proof (Hloop []) as Han. fold (analyze_images (downloaded_images s1)) in Han.
  exists recs, s2. split; [done|]. split; [done|].
  unfold annotate_and_save, bind, get_images. rewrite Han.
  unfold call, emit, lift, ret.
  destruct (open_w _ (world s2)) as [[[]|] w]; [|done]. simpl.
  destruct (dump_records _ recs w) as [[[]|] w']; [|done]. simpl.
  by destruct (len posts).
Qed.

Lemma create_download_directory_run username s r s' :
  create_download_directory username s = (r, s') →
  trace s' = trace s ∧ downloaded_images s' = downloaded_images s
  ∧ ∀ dirs, r = Ok dirs →
      dirs = (base_dir_of username, images_dir_of username,
              videos_dir_of username).
Proof.
  unfold create_download_directory, for_each, bind, call, ret.
  destruct (mkdir _ (world s)) as [[[]|] w1]; simpl;
    [|by intros [= <- <-]].
  destruct (mkdir _ w1) as [[[]|] w2]; simpl; [|by intros [= <- <-]].
  destruct (mkdir _ w2) as [[[]|] w3]; simpl; [|by intros [= <- <-]].
  intros [= <- <-]. split_and!; try done. by intros ? [= <-].
Qed.

(** The shape of a run of [scrape_and_analyze] once the directories
    exist: what [fetch_posts] and [annotate_and_save] give, with every
    exception of theirs turned into the error summary. *)
Lemma scrape_and_analyze_run username limit s dirs sd :
  create_download_directory username
    (logger_info ("Starting to scrape posts from " +:+ username
                  +:+ "'s Instagram...") s).2 = (Ok dirs, sd) →
  let failure e (s1 : state W float) :=
    (Ok (Failure (exn_str e)),
     {| world := world s1;
        trace := trace s1 ++ [Log ERROR ("Error in scrape_and_analyze: "
                                         +:+ exn_str e)];
        downloaded_images := downloaded_images s1 |}) in
  scrape_and_analyze username limit s =
    match fetch_posts (base_dir_of username) (images_dir_of username)
            (videos_dir_of username) (run_input_of username limit) sd with
    | (Ok (mp, posts), s1) =>
        match annotate_and_save (base_dir_of username) mp posts s1 with
        | (Ok summary, s3) => (Ok summary, s3)
        | (Raise e, s3) => failure e s3
        end
    | (Raise e, s1) => failure e s1
    end.
Proof.
  intros Hd failure. unfold scrape_and_analyze.
  unfold bind at 1. unfold logger_info at 1, emit at 1.
  unfold logger_info, emit in Hd. simpl in Hd.
  unfold bind at 1. rewrite Hd.
  apply create_download_directory_run in Hd as (_ & _ & Hdirs).
  rewrite (Hdirs dirs eq_refl).
  unfold try_except, bind at 1.
  destruct (fetch_posts _ _ _ _ sd) as [[[mp posts]|e] s1]; [|done].
  by destruct (annotate_and_save _ mp posts s1) as [[summary|e] s3].
Qed.

(** C6. Once the directories exist, [scrape_and_analyze] never raises: it
    returns a summary.  When the call of the scraping actor raises, or the
    request for the dataset raises or answers with an error status, the
    summary is the error summary with the text of the exception; the run
    has then logged its start and the error and has done nothing else: no
    file was opened and nothing was dumped. *)
Theorem unrecoverable_failure_gives_error_summary username limit s dirs sd :
  let start :=
    Log (float := float) INFO ("Starting to scrape posts from " +:+ username
                               +:+ "'s Instagram...") in
  create_download_directory username (emit start s).2 = (Ok dirs, sd) →
  let failed e w :=
    (Ok (Failure (exn_str e)),
     {| world := w;
        trace := trace s ++ [start; Log ERROR ("Error in scrape_and_analyze: "
                                               +:+ exn_str e)];
        downloaded_images := downloaded_images s |}) in
  let dataset_url id :=
    JStr ("https://api.apify.com/v2/datasets/" +:+ fmt id
          +:+ "/items?format=json") in
  (∃ summary s', scrape_and_analyze username limit s = (Ok summary, s'))
  ∧ (∀ e w,
       actor_call (run_input_of username limit) (world sd) = (Raise e, w) →
       scrape_and_analyze username limit s = failed e w)
  ∧ (∀ run w id e w',
       actor_call (run_input_of username limit) (world sd) = (Ok run, w) →
       getitem run "defaultDatasetId" = Ok id →
       requests_get (dataset_url id) false w = (Raise e, w') →
       scrape_and_analyze username limit s = failed e w')
  ∧ (∀ run w id r w' e,
       actor_call (run_input_of username limit) (world sd) = (Ok run, w) →
       getitem run "defaultDatasetId" = Ok id →
       requests_get (dataset_url id) false w = (Ok r, w') →
       raise_for_status r = Raise e →
       scrape_and_analyze username limit s = failed e w').
Proof.
  intros start Hd failed dataset_url.
  pose proof (scrape_and_analyze_run username limit s dirs sd Hd) as Hrun.
  simpl in Hrun.
  apply create_download_directory_run in Hd as (Htr & Himgs & _).
  simpl in Htr, Himgs.
  split_and!.
  - rewrite Hrun.
    destruct (fetch_posts _ _ _ _ sd) as [[[mp posts]|e] s1]; [|eauto].
    destruct (annotate_and_save _ mp posts s1) as [[summary|e] s3]; eauto.
  - intros e w Ha. rewrite Hrun. unfold fetch_posts, bind, call.
    rewrite Ha. simpl. unfold failed. rewrite Htr, Himgs.
    by rewrite <- app_assoc.
  - intros run w id e w' Ha Hid Hg. rewrite Hrun.
    unfold fetch_posts, bind, call, lift. rewrite Ha. simpl.
    rewrite Hid. fold (dataset_url id). rewrite Hg. simpl.
    unfold failed. rewrite Htr, Himgs. by rewrite <- app_assoc.
  - intros run w id r w' e Ha Hid Hg Hr. rewrite Hrun.
    unfold fetch_posts, bind, call, lift. rewrite Ha. simpl.
    rewrite Hid. fold (dataset_url id). rewrite Hg. simpl. rewrite Hr. simpl.
    unfold failed. rewrite Htr, Himgs. by rewrite <- app_assoc.
Qed.

(** *** No file is downloaded twice *)

Lemma decompose_entry_keys i j entry it :
  it ∈ (decompose_entry i j entry).1 → postIndex it = i ∧ carouselIndex it = j.
Proof.
  unfold decompose_entry.
  destruct (get entry "videoUrl") as [v|], (get entry "displayUrl") as [d|];
    simpl; try by intros ?%elem_of_nil.
  repeat case_match; simpl; rewrite ?list_elem_of_singleton;
    try (by intros ->); by intros ?%elem_of_nil.
Qed.

Lemma decompose_entry_short i j entry :
  length (decompose_entry i j entry).1 ≤ 1.
Proof.
  unfold decompose_entry.
  destruct (get entry "videoUrl"), (get entry "displayUrl"); simpl; try lia.
  repeat case_match; simpl; lia.
Qed.

Lemma decompose_items_keys i l k :
  (∀ it, it ∈ (decompose_items i (enumerate l k)).1 →
     postIndex it = i ∧ ∃ j, carouselIndex it = Some j ∧ k ≤ j)
  ∧ NoDup ((λ it, (postIndex it, carouselIndex it))
           <$> (decompose_items i (enumerate l k)).1).
Proof.
  revert k. induction l as [|item l IH]; intros k; simpl.
  { split; [by intros ? ?%elem_of_nil|constructor]. }
  pose proof (decompose_entry_keys i (Some k) item) as Hk.
  pose proof (decompose_entry_short i (Some k) item) as Hs.
  destruct (decompose_entry i (Some k) item) as [a go]. simpl in *.
  assert (NoDup ((λ it, (postIndex it, carouselIndex it)) <$> a)) as Ha.
  { destruct a as [|x [|]]; simpl in *; [constructor| |lia].
    apply NoDup_singleton. }
  destruct go; [|split; [|done]].
  - destruct (IH (S k)) as [IH1 IH2].
    destruct (decompose_items i (enumerate l (S k))) as [b go']. simpl in *.
    split.
    + intros it [H|H]%elem_of_app.
      * destruct (Hk it H) as [-> ->]. eauto.
      * destruct (IH1 it H) as (-> & j & -> & ?). split; [done|].
        exists j. split; [done|lia].
    + rewrite fmap_app. apply NoDup_app. split_and!; [done| |done].
      intros key (x & -> & Hx)%list_elem_of_fmap
        (y & Heq & Hy)%list_elem_of_fmap.
      destruct (Hk x Hx) as [_ Hcx].
      destruct (IH1 y Hy) as (_ & j & Hcy & ?).
      rewrite Hcx, Hcy in Heq. simplify_eq. lia.
  - intros it H. destruct (Hk it H) as [-> ->]. eauto.
Qed.

Lemma decompose_keys i post :
  (∀ it, it ∈ decompose i post → postIndex it = i)
  ∧ NoDup ((λ it, (postIndex it, carouselIndex it)) <$> decompose i post).
Proof.
  unfold decompose.
  pose proof (decompose_entry_keys i None post) as Hk.
  pose proof (decompose_entry_short i None post) as Hs.
  destruct (decompose_entry i None post) as [a go]. simpl in *.
  assert (NoDup ((λ it, (postIndex it, carouselIndex it)) <$> a)) as Ha.
  { destruct a as [|x [|]]; simpl in *; [constructor| |lia].
    apply NoDup_singleton. }
  destruct go; [|split; [|done]; intros it H; by destruct (Hk it H)].
  assert ((∀ it, it ∈ (decompose_sidecar i post).1 →
             postIndex it = i ∧ ∃ j, carouselIndex it = Some j)
          ∧ NoDup ((λ it, (postIndex it, carouselIndex it))
                   <$> (decompose_sidecar i post).1)) as [Hs1 Hs2].
  { unfold decompose_sidecar.
    destruct (get post "sidecarItems") as [sc|];
      [|split; [by intros ? ?%elem_of_nil|constructor]].
    destruct (truthy sc);
      [|split; [by intros ? ?%elem_of_nil|constructor]].
    destruct (iter sc) as [l|];
      [|split; [by intros ? ?%elem_of_nil|constructor]].
    destruct (decompose_items_keys i l 1) as [H1 H2]. split; [|done].
    intros it H. destruct (H1 it H) as (-> & j & -> & _). eauto. }
  split.
  - intros it [H|H]%elem_of_app; [by destruct (Hk it H)|by destruct (Hs1 it H)].
  - rewrite fmap_app. apply NoDup_app. split_and!; [done| |done].
    intros key (x & -> & Hx)%list_elem_of_fmap
      (y & Heq & Hy)%list_elem_of_fmap.
    destruct (Hk x Hx) as [_ Hcx]. destruct (Hs1 y Hy) as (_ & j & Hcy).
    rewrite Hcx, Hcy in Heq. simplify_eq.
Qed.

Lemma decompose_from_keys l k :
  (∀ it, it ∈ mbind (M := list) (λ '(i, post), decompose i post)
                (enumerate l k) → k ≤ postIndex it)
  ∧ NoDup ((λ it, (postIndex it, carouselIndex it))
           <$> mbind (M := list) (λ '(i, post), decompose i post)
                 (enumerate l k)).
Proof.
  revert k. induction l as [|post l IH]; intros k; simpl.
  { split; [by intros ? ?%elem_of_nil|constructor]. }
  destruct (decompose_keys k post) as [Hk Hn].
  destruct (IH (S k)) as [IH1 IH2]. split.
  - intros it [H|H]%elem_of_app; [by rewrite (Hk it H)|].
    specialize (IH1 it H). lia.
  - rewrite fmap_app. apply NoDup_app. split_and!; [done| |done].
    intros key (x & -> & Hx)%list_elem_of_fmap
      (y & Heq & Hy)%list_elem_of_fmap.
    specialize (Hk x Hx). specialize (IH1 y Hy). simplify_eq. lia.
Qed.

Lemma attempt_of_plan username it u p :
  attempt_of (images_dir_of username) (videos_dir_of username) it
    = Some (u, p) →
  plan username (postIndex it) (carouselIndex it) (kind it) (sourceUrl it)
    = Ok p.
Proof.
  unfold attempt_of, plan. destruct it as [url k i j]. simpl.
  destruct (plan_in _ _ _); by intros [= <- <-].
Qed.

(** Items with different indices are sent to different files. *)
Lemma planned_paths_NoDup username l :
  NoDup ((λ it, (postIndex it, carouselIndex it)) <$> l) →
  NoDup (path_str <$>
         (omap (attempt_of (images_dir_of username) (videos_dir_of username))
            l).*2).
Proof.
  induction l as [|it l IH]; simpl; [constructor|].
  intros [Hnotin Hl]%NoDup_cons. specialize (IH Hl).
  destruct (attempt_of _ _ it) as [[u p]|] eqn:Hit; simpl; [|done].
  apply NoDup_cons. split; [|done].
  intros (p' & Hstr & ([u' p''] & Heq & (it' & Hin & Hit')%list_elem_of_omap)
    %list_elem_of_fmap)%list_elem_of_fmap.
  simpl in Heq. subst p''.
  apply attempt_of_plan in Hit, Hit'.
  assert ((postIndex it, carouselIndex it, kind it)
          ≠ (postIndex it', carouselIndex it', kind it')) as Hne.
  { intros [= H1 H2 _]. apply Hnotin. apply list_elem_of_fmap.
    exists it'. by rewrite H1, H2. }
  by apply (plan_str_distinct _ _ _ _ _ _ _ _ _ _ _ Hne Hit Hit').
Qed.

Lemma NoDup_fmap_eq {A B} (f : A → B) (l : list A) x y :
  NoDup (f <$> l) → x ∈ l → y ∈ l → f x = f y → x = y.
Proof.
  induction l as [|a l IH]; simpl; [by intros _ ?%elem_of_nil|].
  intros [Ha Hl]%NoDup_cons [->|Hx]%elem_of_cons [->|Hy]%elem_of_cons Hf;
    auto.
  - destruct Ha. rewrite Hf. by apply list_elem_of_fmap_2.
  - destruct Ha. rewrite <- Hf. by apply list_elem_of_fmap_2.
Qed.

Lemma stored_in_sublist dir (tr : list (event float)) :
  stored_in dir tr `sublist_of` (attempts tr).*2.
Proof.
  unfold stored_in, attempts.
  induction (downloads tr) as [|[[u p] ok] l IH]; simpl; [done|].
  destruct (ok && bool_decide (parent p = dir));
    [by apply sublist_skip|by apply sublist_cons].
Qed.

Lemma scrape_and_analyze_no_dirs username limit s e sd :
  create_download_directory username
    (logger_info ("Starting to scrape posts from " +:+ username
                  +:+ "'s Instagram...") s).2 = (Raise e, sd) →
  scrape_and_analyze username limit s = (Raise e, sd).
Proof.
  intros Hd. unfold scrape_and_analyze.
  unfold bind at 1. unfold logger_info at 1, emit at 1.
  unfold logger_info, emit in Hd. simpl in Hd.
  unfold bind at 1. by rewrite Hd.
Qed.

Lemma chars_length s : length (chars s) = String.length s.
Proof. induction s as [|c s IH]; simpl; [done|by rewrite IH]. Qed.

(** [len] counts what [iter] visits. *)
Lemma len_of_iter v l : iter v = Ok l → len v = Ok (length l).
Proof.
  destruct v; simpl; try done; intros [= <-].
  - by rewrite chars_length.
  - done.
  - by rewrite length_fmap, length_fmap, length_map_to_list.
Qed.

(** The anatomy of a run that ends with the success summary. *)
Lemma success_anatomy username limit s bd n k mp ap s' :
  scrape_and_analyze username limit s = (Ok (Success bd n k mp ap), s') →
  ∃ posts post_list tr recs tr_a,
    (∃ url w response w',
       requests_get (JStr url) false w = (Ok response, w')
       ∧ json_loads (content response) = Ok posts)
    ∧ iter posts = Ok post_list
    ∧ n = length post_list
    ∧ k = length recs
    ∧ trace s' =
        trace s
        ++ Log INFO ("Starting to scrape posts from " +:+ username
                     +:+ "'s Instagram...")
        :: DumpMetadata (base_dir_of username // "metadata.json") posts
        :: tr ++ tr_a
        ++ [DumpAnalysis (base_dir_of username // "analysis_results.json")
              recs]
    ∧ items tr = decompose_all post_list
    ∧ attempts tr
      = omap (attempt_of (images_dir_of username) (videos_dir_of username))
          (items tr)
    ∧ dumps tr = []
    ∧ record_path <$> recs = path_str <$> stored_in (images_dir_of username) tr
    ∧ items tr_a = [] ∧ downloads tr_a = [] ∧ dumps tr_a = [].
Proof.
  intros Hrun.
  destruct (create_download_directory username
              (logger_info ("Starting to scrape posts from " +:+ username
                            +:+ "'s Instagram...") s).2)
    as [[dirs|e] sd] eqn:Hd;
    [|by rewrite (scrape_and_analyze_no_dirs _ _ _ _ _ Hd) in Hrun].
  rewrite (scrape_and_analyze_run _ _ _ _ _ Hd) in Hrun. simpl in Hrun.
  apply create_download_directory_run in Hd as (Hsd & _ & _).
  simpl in Hsd.
  destruct (fetch_posts _ _ _ _ sd) as [[[mp' posts]|e] s1] eqn:Hf; [|done].
  apply fetch_posts_ok in Hf
    as (-> & l & tr & Hiter & Hs1 & Hitems & (Hatt & Himgs & Hdumps) & Hds);
    [|apply images_videos_differ].
  destruct (annotate_and_save_run (base_dir_of username)
              (base_dir_of username // "metadata.json") posts s1)
    as (recs & s2 & Han & Hrecs & Hsave).
  rewrite Hsave in Hrun. clear Hsave. simpl in Hrun.
  destruct (analyze_images_quiet (downloaded_images s1) s1)
    as (tr_a & Hs2 & Hia & Hda & Hdua & _).
  rewrite Han in Hs2. simpl in Hs2.
  destruct (open_w _ (world s2)) as [[[]|] w]; [|done].
  destruct (dump_records _ recs w) as [[[]|] w']; [|done].
  rewrite (len_of_iter _ _ Hiter) in Hrun.
  injection Hrun as <- <- <- <- <- <-.
  exists posts, l, tr, recs, tr_a. split_and!; try done.
  - simpl. rewrite Hs2, Hs1, Hsd.
    by rewrite <- !app_assoc.
  - by rewrite Hrecs, Himgs.
Qed.

Lemma stored_in_elem dir (tr : list (event float)) p :
  p ∈ stored_in dir tr → parent p = dir ∧ p ∈ (attempts tr).*2.
Proof.
  intros H. split; [|by eapply elem_of_sublist, stored_in_sublist].
  unfold stored_in in H.
  apply list_elem_of_omap in H as ([[u q] ok] & _ & H).
  destruct ok; simpl in H; [|done]. case_bool_decide; by simplify_eq.
Qed.


(** C10. In a run that ends with the success summary, [posts_processed]
    is the number of entries of the value the dataset decodes to: every
    post counts, also one whose processing raised, whose downloads failed
    or that had no media, since the loop over the posts always runs to its
    end. *)
Theorem posts_processed_counts_every_post username limit s bd n k mp ap s' :
  scrape_and_analyze username limit s = (Ok (Success bd n k mp ap), s') →
  ∃ posts post_list,
    (∃ url w response w',
       requests_get (JStr url) false w = (Ok response, w')
       ∧ json_loads (content response) = Ok posts)
    ∧ iter posts = Ok post_list
    ∧ len posts = Ok n
    ∧ n = length post_list
    ∧ (∀ l, posts = JArr l → n = length l)
    ∧ ∀ l start s0,
        (for_each (enumerate l start)
           (process_post (images_dir_of username) (videos_dir_of username))
           s0).1 = Ok tt.
Proof.
  intros Hrun.
  apply success_anatomy in Hrun
    as (posts & l & tr & recs & tr_a & Hds & Hiter & -> & _).
  exists posts, l. split_and!; try done.
  - by apply len_of_iter.
  - intros l' ->. simpl in Hiter. by simplify_eq.
  - intros l' start s0.
    destruct (effects_run
      (for_each (enumerate l' start)
         (process_post (images_dir_of username) (videos_dir_of username)))
      _ s0
      (process_posts_loop_effects _ _ l' start
         (images_videos_differ username)))
      as (? & ? & _ & _ & Hr & _).
    done.
Qed.

(** *** The end-to-end scenario *)

Lemma extension_of_parsed u path e :
  urlparse_path u = Ok path →
  (if String.eqb (lower (splitext_ext path)) "" then ".jpg"
   else lower (splitext_ext path)) = e →
  get_file_extension (JStr u) = Ok e.
Proof. intros H <-. unfold get_file_extension. by rewrite H. Qed.

Ltac lookups :=
  repeat (rewrite lookup_insert_eq || (rewrite lookup_insert_ne by done)
          || rewrite lookup_empty).

Lemma decompose_two_posts :
  urlparse_path "a.jpg" = Ok "a.jpg" →
  urlparse_path "b.mp4" = Ok "b.mp4" →
  urlparse_path "c.jpg" = Ok "c.jpg" →
  urlparse_path "d.mp4" = Ok "d.mp4" →
  ∀ post_list, iter Demo.two_posts = Ok post_list →
  decompose_all post_list =
    [ {| sourceUrl := JStr "a.jpg"; kind := Image; postIndex := 1;
         carouselIndex := None |};
      {| sourceUrl := JStr "b.mp4"; kind := Video; postIndex := 2;
         carouselIndex := None |};
      {| sourceUrl := JStr "c.jpg"; kind := Image; postIndex := 2;
         carouselIndex := Some 1 |};
      {| sourceUrl := JStr "d.mp4"; kind := Video; postIndex := 2;
         carouselIndex := Some 2 |} ].
Proof.
  intros Ha Hb Hc Hd post_list [= <-].
  apply (extension_of_parsed _ _ ".jpg") in Ha; [|done].
  apply (extension_of_parsed _ _ ".mp4") in Hb; [|done].
  apply (extension_of_parsed _ _ ".jpg") in Hc; [|done].
  apply (extension_of_parsed _ _ ".mp4") in Hd; [|done].
  unfold decompose_all. simpl enumerate.
  unfold decompose, decompose_entry, decompose_sidecar, Demo.dict, get.
  simpl list_to_map.
  repeat (progress (lookups; cbn -[get_file_extension];
                    rewrite ?Ha, ?Hb, ?Hc, ?Hd)).
  done.
Qed.


End WithCollaborators.
End Pipeline.

(** ** The theorems at work on the scripted world *)

Module Examples.
Import Scraper PlannerFacts PostLoop Annotator Pipeline.

#[local] Existing Instance Demo.happy_world.

Lemma plan_injective_witness :
  (1, None, Image) ≠ (2, Some 1, Image)
  ∧ plan "bob" 1 None Image (JStr "a.jpg")
    = Ok (MkPath ["instagram_downloads"; "bob"; "images"; "post_1.jpg"])
  ∧ plan "bob" 2 (Some 1) Image (JStr "https://cdn.example/x/c.JPG?sig=1")
    = Ok (MkPath ["instagram_downloads"; "bob"; "images";
                  "post_2_carousel_1.jpg"])
  ∧ MkPath ["instagram_downloads"; "bob"; "images"; "post_1.jpg"]
    ≠ MkPath ["instagram_downloads"; "bob"; "images"; "post_2_carousel_1.jpg"].
Proof.
  assert ((1, None, Image) ≠ (2, Some 1, Image)) as Hne by done.
  assert (plan "bob" 1 None Image (JStr "a.jpg")
          = Ok (MkPath ["instagram_downloads"; "bob"; "images"; "post_1.jpg"]))
    as H1 by (vm_compute; reflexivity).
  assert (plan "bob" 2 (Some 1) Image (JStr "https://cdn.example/x/c.JPG?sig=1")
          = Ok (MkPath ["instagram_downloads"; "bob"; "images";
                        "post_2_carousel_1.jpg"]))
    as H2 by (vm_compute; reflexivity).
  split; [exact Hne|]. split; [exact H1|]. split; [exact H2|].
  exact (proj1 (plan_injective _ _ _ _ _ _ _ _ _ _ _ Hne H1 H2)).
Defined.

Lemma top_level_video_wins_witness :
  let post := Demo.dict [("videoUrl", JStr "b.mp4");
                         ("displayUrl", JStr "a.jpg")] in
  get post "videoUrl" = Ok (JStr "b.mp4")
  ∧ truthy (JStr "b.mp4") = true
  ∧ ∃ tr : list (event nat),
      items tr = [{| sourceUrl := JStr "b.mp4"; kind := Video;
                     postIndex := 7; carouselIndex := None |}]
      ∧ stored_in (images_dir_of "bob") tr = [].
Proof.
  intros post.
  assert (get post "videoUrl" = Ok (JStr "b.mp4")) as H1
    by (vm_compute; reflexivity).
  assert (truthy (JStr "b.mp4") = true) as H2 by reflexivity.
  split; [exact H1|]. split; [exact H2|].
  destruct (top_level_video_wins "bob" 7 post (JStr "b.mp4") Demo.start H1 H2)
    as (tr & _ & Hitems & _ & Hstored & _).
  exists tr. split; [exact Hitems|exact Hstored].
Defined.

Lemma carousel_item_video_first_witness :
  let item := Demo.dict [("videoUrl", JStr "d.mp4");
                         ("displayUrl", JStr "c.jpg")] in
  ∃ tr : list (event nat),
    items tr = [{| sourceUrl := JStr "d.mp4"; kind := Video;
                   postIndex := 2; carouselIndex := Some 3 |}].
Proof.
  intros item.
  destruct (carousel_item_video_first "bob" 2 3 item Demo.start)
    as (tr & _ & _ & _ & _ & H).
  exists tr.
  apply (H (JStr "d.mp4") (JStr "c.jpg")); vm_compute; reflexivity.
Defined.

Lemma empty_url_is_absent_witness :
  ("videoUrl" = "videoUrl" ∨ "videoUrl" = "displayUrl")
  ∧ process_post (images_dir_of "bob") (videos_dir_of "bob")
      (1, JObj (<["videoUrl" := JStr ""]> {["displayUrl" := JStr "a.jpg"]}))
      Demo.start
    = process_post (images_dir_of "bob") (videos_dir_of "bob")
        (1, JObj (delete "videoUrl" {["displayUrl" := JStr "a.jpg"]}))
        Demo.start.
Proof.
  assert ("videoUrl" = "videoUrl" ∨ "videoUrl" = "displayUrl") as Hk
    by (left; reflexivity).
  split; [exact Hk|].
  exact (proj1 (empty_url_is_absent "bob" 1 1
                  {["displayUrl" := JStr "a.jpg"]} "videoUrl" Demo.start Hk)).
Defined.


Lemma unrecoverable_failure_witness :
  let C := Demo.scripted Demo.actor_down in
  let start :=
    Log (float := nat) INFO "Starting to scrape posts from bob's Instagram..." in
  create_download_directory (C := C) "bob" (emit start Demo.start).2
  = (Ok (base_dir_of "bob", images_dir_of "bob", videos_dir_of "bob"),
     (emit start Demo.start).2)
  ∧ (scrape_and_analyze (C := C) "bob" 5 Demo.start).1
    = Ok (Failure "actor run failed").
Proof.
  intros C start.
  assert (create_download_directory (C := C) "bob" (emit start Demo.start).2
          = (Ok (base_dir_of "bob", images_dir_of "bob", videos_dir_of "bob"),
             (emit start Demo.start).2)) as Hd by reflexivity.
  split; [exact Hd|].
  destruct (unrecoverable_failure_gives_error_summary (C := C) "bob" 5
              Demo.start _ _ Hd) as (_ & Hactor & _).
  rewrite (Hactor (Exn "ApifyApiError" "actor run failed") [] eq_refl).
  reflexivity.
Defined.

Lemma posts_processed_witness :
  scrape_and_analyze "bob" 5 Demo.start
  = (Ok (Success "instagram_downloads/bob" 2 2
           "instagram_downloads/bob/metadata.json"
           "instagram_downloads/bob/analysis_results.json"),
     (scrape_and_analyze "bob" 5 Demo.start).2)
  ∧ ∃ posts post_list,
      iter posts = Ok post_list ∧ 2 = length post_list.
Proof.
  assert (scrape_and_analyze "bob" 5 Demo.start
          = (Ok (Success "instagram_downloads/bob" 2 2
                   "instagram_downloads/bob/metadata.json"
                   "instagram_downloads/bob/analysis_results.json"),
             (scrape_and_analyze "bob" 5 Demo.start).2)) as Hrun
    by (vm_compute; reflexivity).
  split; [exact Hrun|].
  destruct (posts_processed_counts_every_post _ _ _ _ _ _ _ _ _ Hrun)
    as (posts & l & _ & Hiter & _ & Hn & _).
  exists posts, l. split; [exact Hiter|exact Hn].
Defined.

Lemma analyze_images_witness :
  let C := Demo.scripted Demo.second_image_refused in
  let p1 := images_dir_of "bob" // "post_1.jpg" in
  let p2 := images_dir_of "bob" // "post_2_carousel_1.jpg" in
  ∃ recs,
    (analyze_images (C := C) [p1; p2] Demo.start).1 = Ok recs
    ∧ length recs = 2
    ∧ is_error <$> recs = [false; true]
    ∧ record_path <$> recs = [path_str p1; path_str p2].
Proof.
  intros C p1 p2.
  destruct (analyze_images_one_record_each (C := C) [p1; p2] Demo.start)
    as (recs & s' & Hrun & Hlen & Hpaths & _).
  exists recs. rewrite Hrun. split; [reflexivity|]. split; [exact Hlen|].
  split; [|exact Hpaths].
  assert ((analyze_images (C := C) [p1; p2] Demo.start).1
          = Ok [Analysis (path_str p1)
                  [Build_FaceData "VERY_LIKELY" "VERY_UNLIKELY"
                     "VERY_UNLIKELY" "POSSIBLE" 97]
                  [Build_LabelData "Sky" 88]
                  {| sd_adult := "VERY_UNLIKELY"; sd_violence := "UNLIKELY";
                     sd_racy := "UNKNOWN" |};
                AnalysisError (path_str p2) "service unavailable"]) as Hval
    by (vm_compute; reflexivity).
  rewrite Hrun in Hval. injection Hval as ->. reflexivity.
Defined.


Lemma failed_download_witness :
  let C := Demo.scripted Demo.video_unreachable in
  let posts :=
    [ Demo.dict [("displayUrl", JStr "a.jpg")];
      Demo.dict [("videoUrl", JStr "b.mp4");
                 ("sidecarItems",
                  JArr [ Demo.dict [("displayUrl", JStr "c.jpg")];
                         Demo.dict [("videoUrl", JStr "d.mp4")] ])] ] in
  (download_media (C := C) (JStr "b.mp4") (videos_dir_of "bob" // "post_2.mp4")
     Demo.start).1 = Ok false
  ∧ ∃ tr : list (event nat),
      trace (for_each (enumerate posts 1)
               (process_post (C := C) (images_dir_of "bob")
                  (videos_dir_of "bob")) Demo.start).2 = tr
      ∧ attempts tr =
          [ (JStr "a.jpg", images_dir_of "bob" // "post_1.jpg");
            (JStr "b.mp4", videos_dir_of "bob" // "post_2.mp4");
            (JStr "c.jpg", images_dir_of "bob" // "post_2_carousel_1.jpg");
            (JStr "d.mp4", videos_dir_of "bob" // "post_2_carousel_2.mp4") ].
Proof.
  intros C posts.
  destruct (failed_download_goes_on (C := C) "bob" (JStr "b.mp4")
              (videos_dir_of "bob" // "post_2.mp4") posts Demo.start)
    as (_ & Hget & _ & _ & _ & _ & tr & Htr & Hatt).
  split.
  - exact (Hget (Exn "ConnectionError" "connection refused") [] eq_refl).
  - exists tr. split; [exact Htr|]. rewrite Hatt. vm_compute. reflexivity.
Defined.

(** A status code that is neither a success code nor an error code, here
    304, does not make [download_media] answer false:
    [raise_for_status] lets it pass, the empty body is written, and the
    answer is true. *)
Lemma not_modified_download_answers_true :
  requests_get (Collaborators := Demo.not_modified) (JStr "a.jpg") true
    (world Demo.start)
  = (Ok {| status_code := 304; content := "" |}, [])
  ∧ ¬ (200 ≤ 304 < 300)%nat
  ∧ download_media (C := Demo.not_modified) (JStr "a.jpg")
      (images_dir_of "bob" // "post_1.jpg") Demo.start
    = (Ok true,
       {| world := ["instagram_downloads/bob/images/post_1.jpg"];
          trace := [Download (JStr "a.jpg")
                      (images_dir_of "bob" // "post_1.jpg") true];
          downloaded_images := [] |}).
Proof.
  split; [reflexivity|]. split; [lia|]. vm_compute. reflexivity.
Qed.

End Examples.

(** * Further properties of the code *)

(** ** File extensions *)

Module ExtensionFacts.
Import Str StrFacts Scraper PlannerFacts.

Lemma lower_char_idem c : lower_char (lower_char c) = lower_char c.
Proof. destruct c as [[] [] [] [] [] [] [] []]; reflexivity. Qed.

Lemma lower_idem s : lower (lower s) = lower s.
Proof.
  induction s as [|c s IH]; simpl; [done|]. by rewrite lower_char_idem, IH.
Qed.

Lemma has_dot_lower s : has_char "." (lower s) = has_char "." s.
Proof.
  induction s as [|c s IH]; simpl; [done|]. rewrite IH.
  destruct (Ascii.eqb_spec (lower_char c) ".") as [H|H],
    (Ascii.eqb_spec c ".") as [H'|H']; try done.
  - by apply (proj1 (lower_char_dot c)) in H.
  - subst c. by vm_compute in H.
Qed.

(** What [splitext] gives is empty, or a dot followed by text with neither
    a dot nor a slash. *)
Lemma splitext_go_one_dot seen p :
  splitext_go seen p = ""
  ∨ ∃ r, splitext_go seen p = String "." r
      ∧ has_char "." r = false ∧ has_char "/" r = false.
Proof.
  revert seen. induction p as [|c r IH]; intros seen; simpl; [by left|].
  destruct (Ascii.eqb_spec c "/") as [->|Hs]; [apply IH|].
  destruct (Ascii.eqb_spec c ".") as [->|Hd]; [|apply IH].
  destruct (has_char "/" r) eqn:Hr; simpl; [apply IH|].
  destruct (has_char "." r) eqn:Hr'; [apply IH|].
  destruct seen; [right|by left]. eauto.
Qed.

(** A directory part, ending in a slash, does not count. *)
Lemma splitext_go_skip_dir d rest seen :
  splitext_go seen ((d +:+ "/") +:+ rest) = splitext_go false rest.
Proof.
  revert seen. induction d as [|c d IH]; intros seen; [done|].
  change (splitext_go seen (String c ((d +:+ "/") +:+ rest))
          = splitext_go false rest).
  assert (has_char "/" ((d +:+ "/") +:+ rest) = true) as Hslash.
  { rewrite !has_char_app. simpl. by rewrite orb_true_r. }
  simpl. rewrite Hslash. simpl.
  destruct (Ascii.eqb c "/"); [apply IH|].
  destruct (Ascii.eqb c "."); apply IH.
Qed.

Lemma splitext_go_no_dot seen name :
  has_char "." name = false → has_char "/" name = false →
  splitext_go seen name = "".
Proof.
  revert seen. induction name as [|c r IH]; intros seen; simpl; [done|].
  destruct (Ascii.eqb c "."); [done|]. destruct (Ascii.eqb c "/"); [done|].
  intros ??. by apply IH.
Qed.

Lemma splitext_go_seen stem e :
  has_char "/" stem = false →
  has_char "." e = false → has_char "/" e = false →
  splitext_go true (stem +:+ String "." e) = String "." e.
Proof.
  intros Hs He He'. induction stem as [|c stem IH].
  - change (splitext_go true (String "." e) = String "." e).
    simpl. by rewrite He, He'.
  - change (splitext_go true (String c (stem +:+ String "." e))
            = String "." e).
    simpl in Hs. simpl.
    destruct (Ascii.eqb c "/"); [done|].
    assert (has_char "." (stem +:+ String "." e) = true) as Hdot.
    { rewrite has_char_app. simpl. by rewrite orb_true_r. }
    rewrite Hdot, orb_true_r. destruct (Ascii.eqb c "."); by apply IH.
Qed.

Lemma splitext_go_stem seen dots c stem e :
  has_char "/" dots = false → c ≠ "."%char → c ≠ "/"%char →
  has_char "/" stem = false →
  has_char "." e = false → has_char "/" e = false →
  splitext_go seen (dots +:+ String c (stem +:+ String "." e)) = String "." e.
Proof.
  intros Hd Hc Hc' Hs He He'. revert seen.
  induction dots as [|a dots IH]; intros seen.
  - change (splitext_go seen (String c (stem +:+ String "." e))
            = String "." e).
    simpl. destruct (Ascii.eqb_spec c "/"); [done|].
    destruct (Ascii.eqb_spec c "."); [done|]. by apply splitext_go_seen.
  - change (splitext_go seen
              (String a (dots +:+ String c (stem +:+ String "." e)))
            = String "." e).
    simpl in Hd. simpl. destruct (Ascii.eqb a "/"); [done|].
    assert (has_char "." (dots +:+ String c (stem +:+ String "." e)) = true)
      as Hdot.
    { rewrite has_char_app. simpl. rewrite has_char_app. simpl.
      destruct (Ascii.eqb c "."); by rewrite ?orb_true_r. }
    rewrite Hdot, orb_true_r. destruct (Ascii.eqb a "."); by apply IH.
Qed.

Lemma lower_dot_cons e : lower (String "." e) = String "." (lower e).
Proof. done. Qed.

Section WithCollaborators.
Context {W float : Type} `{C : Collaborators W float}.

(** X1. Whatever [get_file_extension] returns is a usable file suffix: a
    dot followed by text that has no further dot and no slash, and it is in
    lower case already. *)
Theorem extension_is_tidy url e :
  get_file_extension url = Ok e →
  lower e = e
  ∧ ∃ r, e = String "." r
      ∧ has_char "." r = false ∧ has_char "/" r = false.
Proof.
  unfold get_file_extension. destruct url;
    try (destruct (truthy _); [done|intros [= <-]; split; [done|]; by eexists]).
  destruct (urlparse_path s) as [path|]; [|done]. intros [= <-].
  destruct (String.eqb_spec (lower (splitext_ext path)) "") as [|Hne];
    [split; [done|]; by eexists|].
  split; [apply lower_idem|].
  destruct (splitext_go_one_dot false path) as [H|(r & H & Hd & Hs)].
  - unfold splitext_ext in Hne. by rewrite H in Hne.
  - unfold splitext_ext. rewrite H. exists (lower r).
    by rewrite lower_dot_cons, has_dot_lower, has_slash_lower.
Qed.

(** X2. The default extension: when the last component of the path of the
    URL has no dot, the extension is [.jpg], whatever dots the directories
    before it have. *)
Theorem extension_defaults_to_jpg u dir name :
  urlparse_path u = Ok (dir +:+ name) →
  dir = "" ∨ (∃ d, dir = d +:+ "/") →
  has_char "." name = false → has_char "/" name = false →
  get_file_extension (JStr u) = Ok ".jpg".
Proof.
  intros Hu Hdir Hdot Hslash. unfold get_file_extension. rewrite Hu.
  assert (splitext_ext (dir +:+ name) = "") as ->; [|done].
  unfold splitext_ext. destruct Hdir as [->|[d ->]].
  - by apply splitext_go_no_dot.
  - rewrite splitext_go_skip_dir. by apply splitext_go_no_dot.
Qed.

(** X3. The extension of a path [dir/stem.ext]: when the last component
    has a character other than a dot before its last dot, the extension is
    that last dot and what follows it, in lower case; a name that ends in
    a dot gives the extension [.] alone. *)
Theorem extension_of_file_name u dir dots c stem e :
  urlparse_path u = Ok (dir +:+ dots +:+ String c (stem +:+ String "." e)) →
  dir = "" ∨ (∃ d, dir = d +:+ "/") →
  has_char "/" dots = false → c ≠ "."%char → c ≠ "/"%char →
  has_char "/" stem = false →
  has_char "." e = false → has_char "/" e = false →
  get_file_extension (JStr u) = Ok (String "." (lower e)).
Proof.
  intros Hu Hdir Hd Hc Hc' Hs He He'. unfold get_file_extension. rewrite Hu.
  assert (splitext_ext (dir +:+ dots +:+ String c (stem +:+ String "." e))
          = String "." e) as ->; [|done].
  unfold splitext_ext. destruct Hdir as [->|[d ->]].
  - by apply splitext_go_stem.
  - rewrite splitext_go_skip_dir. by apply splitext_go_stem.
Qed.

End WithCollaborators.
End ExtensionFacts.

(** ** Downloads and directories *)

Module FetcherFacts.
Import Str StrFacts Scraper PlannerFacts EffectRules PostLoop Pipeline.

(** A case of [download_media] in which a step has raised. *)
Ltac download_failed :=
  eexists false, _, [_]; split; [by rewrite <- app_assoc|];
  split_and!; try done; try (by eauto);
  try (intros; simplify_eq; congruence);
  split; [done|]; intros (? & ? & ? & ? & ? & ? & ?); simplify_eq; congruence.

Section WithCollaborators.
Context {W float : Type} `{C : Collaborators W float}.

(** X4. [download_media] answers true exactly when the request, the status
    check, the opening of the file and the writing all succeed.  It leaves
    one [Download] event, preceded by one error line when the answer is
    false and by nothing when it is true.  When the request raises or the
    status is an error, the destination file is not opened: the world is
    the one the request left. *)
Theorem download_media_outcome url save_path s :
  ∃ ok w logs,
    download_media url save_path s
    = (Ok ok, {| world := w;
                 trace := trace s ++ logs ++ [Download url save_path ok];
                 downloaded_images := downloaded_images s |})
    ∧ (ok = true ↔
       ∃ r w1 w2, requests_get url true (world s) = (Ok r, w1)
         ∧ raise_for_status r = Ok tt
         ∧ open_w save_path w1 = (Ok tt, w2)
         ∧ write_stream save_path r w2 = (Ok tt, w))
    ∧ (if ok then logs = []
       else ∃ e, logs = [Log ERROR ("Error downloading " +:+ fmt url +:+ ": "
                                    +:+ exn_str e)])
    ∧ (∀ e w', requests_get url true (world s) = (Raise e, w') → w = w')
    ∧ (∀ r w' e, requests_get url true (world s) = (Ok r, w') →
         raise_for_status r = Raise e → w = w').
Proof.
  unfold download_media, download_body, try_except, bind, call, lift, ret,
    logger_error, emit.
  destruct (requests_get url true (world s)) as [[r|e] w1] eqn:Hget; simpl;
    [|download_failed].
  destruct (raise_for_status r) as [[]|e] eqn:Hst; simpl; [|download_failed].
  destruct (open_w save_path w1) as [[[]|e] w2] eqn:Hopen; simpl;
    [|download_failed].
  destruct (write_stream save_path r w2) as [[[]|e] w3] eqn:Hwrite; simpl;
    [|download_failed].
  eexists true, w3, []. split; [done|].
  split_and!; try done; try (intros; simplify_eq; congruence).
  split; [|done]. intros _. eauto 10.
Qed.

Lemma create_download_directory_eq username s :
  create_download_directory username s =
    let at_world w :=
      {| world := w; trace := trace s;
         downloaded_images := downloaded_images s |} in
    match mkdir (base_dir_of username) (world s) with
    | (Raise e, w) => (Raise e, at_world w)
    | (Ok _, w1) =>
        match mkdir (images_dir_of username) w1 with
        | (Raise e, w) => (Raise e, at_world w)
        | (Ok _, w2) =>
            match mkdir (videos_dir_of username) w2 with
            | (Raise e, w) => (Raise e, at_world w)
            | (Ok _, w3) =>
                (Ok (base_dir_of username, images_dir_of username,
                     videos_dir_of username), at_world w3)
            end
        end
    end.
Proof.
  unfold create_download_directory, for_each, bind, call, ret.
  fold (base_dir_of username). fold (images_dir_of username).
  fold (videos_dir_of username).
  destruct (mkdir _ (world s)) as [[[]|] w1]; simpl; [|done].
  destruct (mkdir _ w1) as [[[]|] w2]; simpl; [|done].
  by destruct (mkdir _ w2) as [[[]|] w3].
Qed.

(** X5. Creating the directories is not under the [try] of
    [scrape_and_analyze]: when one of the three [mkdir] calls raises, the
    exception reaches the caller instead of becoming an error summary.
    The run has then only logged its start, the later directories were
    not tried, and the actor was never called. *)
Theorem directory_failure_reaches_caller username limit s :
  let start :=
    Log (float := float) INFO ("Starting to scrape posts from " +:+ username
                               +:+ "'s Instagram...") in
  let raised e w :=
    (Raise (A := RunSummary) e,
     {| world := w; trace := trace s ++ [start];
        downloaded_images := downloaded_images s |}) in
  (∀ e w, mkdir (base_dir_of username) (world s) = (Raise e, w) →
     scrape_and_analyze username limit s = raised e w)
  ∧ (∀ w1 e w, mkdir (base_dir_of username) (world s) = (Ok tt, w1) →
       mkdir (images_dir_of username) w1 = (Raise e, w) →
       scrape_and_analyze username limit s = raised e w)
  ∧ (∀ w1 w2 e w, mkdir (base_dir_of username) (world s) = (Ok tt, w1) →
       mkdir (images_dir_of username) w1 = (Ok tt, w2) →
       mkdir (videos_dir_of username) w2 = (Raise e, w) →
       scrape_and_analyze username limit s = raised e w).
Proof.
  intros start raised. split_and!.
  - intros e w H. apply scrape_and_analyze_no_dirs.
    rewrite create_download_directory_eq. simpl. by rewrite H.
  - intros w1 e w H1 H2. apply scrape_and_analyze_no_dirs.
    rewrite create_download_directory_eq. simpl. by rewrite H1, H2.
  - intros w1 w2 e w H1 H2 H3. apply scrape_and_analyze_no_dirs.
    rewrite create_download_directory_eq. simpl. by rewrite H1, H2, H3.
Qed.

Lemma parse_parts_base username :
  parse_parts ("instagram_downloads/" +:+ username)
  = "instagram_downloads" :: parse_parts username.
Proof.
  unfold parse_parts. simpl. by rewrite filter_cons_True by done.
Qed.

(** X6. The layout [create_download_directory] returns when the three
    [mkdir] calls succeed: the base directory is [instagram_downloads]
    followed by the components of the username (empty components and [.]
    are dropped, everything else is kept), the two media directories are
    [images] and [videos] directly under it, and they are different
    paths. *)
Theorem download_directory_layout username s w1 w2 w3 :
  mkdir (base_dir_of username) (world s) = (Ok tt, w1) →
  mkdir (images_dir_of username) w1 = (Ok tt, w2) →
  mkdir (videos_dir_of username) w2 = (Ok tt, w3) →
  ∃ base_dir images_dir videos_dir,
    create_download_directory username s
    = (Ok (base_dir, images_dir, videos_dir),
       {| world := w3; trace := trace s;
          downloaded_images := downloaded_images s |})
    ∧ parts base_dir = "instagram_downloads" :: parse_parts username
    ∧ parts images_dir = parts base_dir ++ ["images"]
    ∧ parts videos_dir = parts base_dir ++ ["videos"]
    ∧ images_dir ≠ videos_dir
    ∧ path_str images_dir = path_str base_dir +:+ "/images"
    ∧ path_str videos_dir = path_str base_dir +:+ "/videos".
Proof.
  intros H1 H2 H3.
  exists (base_dir_of username), (images_dir_of username),
    (videos_dir_of username).
  assert (parts (base_dir_of username)
          = "instagram_downloads" :: parse_parts username) as Hbase.
  { apply parse_parts_base. }
  split_and!.
  - rewrite create_download_directory_eq. simpl. by rewrite H1, H2, H3.
  - done.
  - done.
  - done.
  - apply images_videos_differ.
  - assert (path_str (base_dir_of username)
            = join "/" (parts (base_dir_of username))) as ->.
    { unfold path_str. by rewrite Hbase. }
    change (images_dir_of username)
      with (MkPath (parts (base_dir_of username) ++ ["images"])).
    by rewrite path_str_snoc by (by rewrite Hbase).
  - assert (path_str (base_dir_of username)
            = join "/" (parts (base_dir_of username))) as ->.
    { unfold path_str. by rewrite Hbase. }
    change (videos_dir_of username)
      with (MkPath (parts (base_dir_of username) ++ ["videos"])).
    by rewrite path_str_snoc by (by rewrite Hbase).
Qed.

End WithCollaborators.
End FetcherFacts.

(** ** More on the loop over the posts *)

Module PostLoopFacts.
Import Str StrFacts Scraper PlannerFacts EffectRules PostLoop Pipeline.

Section WithCollaborators.
Context {W float : Type} `{C : Collaborators W float}.

Local Abbreviation M := (@M W float).

(** The error line of a post that is no dictionary. *)
Lemma process_post_not_a_dictionary images_dir videos_dir i post s :
  (∀ m, post ≠ JObj m) →
  process_post images_dir videos_dir (i, post) s
  = (Ok tt,
     {| world := world s;
        trace := trace s ++
          [Log ERROR ("Error processing post " +:+ str_int i +:+ ": '"
                      +:+ type_name post
                      +:+ "' object has no attribute 'get'")];
        downloaded_images := downloaded_images s |}).
Proof.
  intros Hpost. destruct post; try done. by destruct (Hpost m).
Qed.

(** X7. Entries of the dataset that are no dictionaries are skipped: each
    costs one error line and nothing else, no collaborator is called and
    [downloaded_images] is left alone.  This is what happens to every
    entry when the dataset decodes to an object or a string instead of an
    array: the loop then runs over the keys or the characters. *)
Theorem non_dictionary_entries_are_skipped images_dir videos_dir :
  (∀ post_list start (s : state W float),
     Forall (λ post, ∀ m, post ≠ JObj m) post_list →
     for_each (enumerate post_list start)
       (process_post images_dir videos_dir) s
     = (Ok tt,
        {| world := world s;
           trace := trace s ++
             ((λ '(i, post),
                Log ERROR ("Error processing post " +:+ str_int i +:+ ": '"
                           +:+ type_name post
                           +:+ "' object has no attribute 'get'"))
              <$> enumerate post_list start);
           downloaded_images := downloaded_images s |}))
  ∧ (∀ posts post_list,
       iter posts = Ok post_list → (∀ l, posts ≠ JArr l) →
       Forall (λ post, ∀ m, post ≠ JObj m) post_list).
Proof.
  split.
  - intros post_list. induction post_list as [|post l IH]; intros start s Hall.
    + simpl. unfold ret. destruct s. simpl. by rewrite app_nil_r.
    + apply Forall_cons in Hall as [Hpost Hall].
      change (for_each (enumerate (post :: l) start)
                (process_post images_dir videos_dir) s)
        with (bind (process_post images_dir videos_dir (start, post))
                (λ _, for_each (enumerate l (S start))
                        (process_post images_dir videos_dir)) s).
      unfold bind. rewrite process_post_not_a_dictionary by done.
      rewrite IH by done. simpl. by rewrite <- app_assoc.
  - intros posts post_list Hiter Hposts.
    destruct posts; simpl in Hiter; try done; simplify_eq.
    + clear Hposts. induction s as [|c s IH]; simpl; by constructor.
    + exfalso. by eapply Hposts.
    + apply Forall_fmap, Forall_true. done.
Qed.

(** X8. A post whose URL has no derivable extension is abandoned: when
    [get_file_extension] raises on the video URL of a post (or on its
    display URL, where there is no video URL), the work on the post ends
    with one error line.  Nothing is downloaded for the post, its carousel
    is not visited, and the loop goes on: the body returns normally. *)
Theorem underivable_extension_abandons_post images_dir videos_dir i m v d e
    (s : state W float) :
  get (JObj m) "videoUrl" = Ok v →
  get (JObj m) "displayUrl" = Ok d →
  (truthy v = true ∧ get_file_extension v = Raise e)
  ∨ (truthy v = false ∧ truthy d = true ∧ get_file_extension d = Raise e) →
  process_post images_dir videos_dir (i, JObj m) s
  = (Ok tt,
     {| world := world s;
        trace := trace s ++
          [Item {| sourceUrl := if truthy v then v else d;
                   kind := if truthy v then Video else Image;
                   postIndex := i; carouselIndex := None |};
           Log ERROR ("Error processing post " +:+ str_int i +:+ ": "
                      +:+ exn_str e)];
        downloaded_images := downloaded_images s |}).
Proof.
  unfold get. intros [= <-] [= <-] Hcase.
  unfold process_post, try_except, process_top_level, bind, lift, get, getitem,
    emit, ret, logger_error.
  destruct Hcase as [[Tv He]|(Tv & Td & He)].
  - rewrite Tv. destruct (m !! "videoUrl") as [v|]; simpl in *; [|done].
    rewrite He. simpl. unfold emit. simpl. by rewrite <- app_assoc.
  - rewrite Tv. simpl. rewrite Td. simpl.
    destruct (m !! "displayUrl") as [d|]; simpl in *; [|done].
    rewrite He. simpl. unfold emit. simpl. by rewrite <- app_assoc.
Qed.

(** *** Where the media items come from *)

Lemma decompose_entry_source i j entry it :
  it ∈ (decompose_entry i j entry).1 →
  postIndex it = i ∧ carouselIndex it = j ∧ entry_has entry it.
Proof.
  unfold decompose_entry, entry_has.
  destruct (get entry "videoUrl") as [v|], (get entry "displayUrl") as [d|];
    simpl; try by intros ?%elem_of_nil.
  repeat case_match; simpl; rewrite ?list_elem_of_singleton;
    try (by intros ->); by intros ?%elem_of_nil.
Qed.

Lemma decompose_items_source i l k it :
  it ∈ (decompose_items i (enumerate l k)).1 →
  postIndex it = i
  ∧ ∃ j item, carouselIndex it = Some j ∧ k ≤ j
      ∧ l !! (j - k) = Some item ∧ entry_has item it.
Proof.
  revert k. induction l as [|item l IH]; intros k; simpl;
    [by intros ?%elem_of_nil|].
  pose proof (decompose_entry_source i (Some k) item it) as Hk.
  destruct (decompose_entry i (Some k) item) as [a go]. simpl in *.
  assert (it ∈ a → postIndex it = i
          ∧ ∃ j item', carouselIndex it = Some j ∧ k ≤ j
              ∧ (item :: l) !! (j - k) = Some item' ∧ entry_has item' it)
    as Hhead.
  { intros H. destruct (Hk H) as (-> & -> & ?). split; [done|].
    exists k, item. by rewrite Nat.sub_diag. }
  destruct go; [|done].
  specialize (IH (S k)).
  destruct (decompose_items i (enumerate l (S k))) as [b go']. simpl in *.
  intros [H|H]%elem_of_app; [by apply Hhead|].
  destruct (IH H) as (-> & j & item' & Hj & Hle & Hl & Hhas).
  split; [done|]. exists j, item'. split_and!; [done|lia| |done].
  by replace (j - k) with (S (j - S k)) by lia.
Qed.

Lemma decompose_source i post it :
  it ∈ decompose i post →
  postIndex it = i
  ∧ match carouselIndex it with
    | None => entry_has post it
    | Some j =>
        1 ≤ j ∧ ∃ item, carousel_entries post !! (j - 1) = Some item
                  ∧ entry_has item it
    end.
Proof.
  unfold decompose.
  pose proof (decompose_entry_source i None post it) as Hk.
  destruct (decompose_entry i None post) as [a go]. simpl in *.
  assert (it ∈ a → postIndex it = i
          ∧ match carouselIndex it with
            | None => entry_has post it
            | Some j =>
                1 ≤ j ∧ ∃ item, carousel_entries post !! (j - 1) = Some item
                          ∧ entry_has item it
            end) as Hhead.
  { intros H. destruct (Hk H) as (-> & -> & ?). done. }
  destruct go; [|done].
  intros [H|H]%elem_of_app; [by apply Hhead|].
  unfold decompose_sidecar, carousel_entries in *.
  destruct (get post "sidecarItems") as [sc|]; [|by apply elem_of_nil in H].
  destruct (truthy sc); [|by apply elem_of_nil in H].
  destruct (iter sc) as [l|]; [|by apply elem_of_nil in H].
  apply decompose_items_source in H as (-> & j & item & -> & ? & ? & ?).
  eauto.
Qed.

Lemma decompose_from_source l k it :
  it ∈ mbind (M := list) (λ '(i, post), decompose i post) (enumerate l k) →
  k ≤ postIndex it
  ∧ ∃ post, l !! (postIndex it - k) = Some post
      ∧ match carouselIndex it with
        | None => entry_has post it
        | Some j =>
            1 ≤ j ∧ ∃ item, carousel_entries post !! (j - 1) = Some item
                      ∧ entry_has item it
        end.
Proof.
  revert k. induction l as [|post l IH]; intros k; simpl;
    [by intros ?%elem_of_nil|].
  intros [H|H]%elem_of_app.
  - apply decompose_source in H as [<- H]. split; [done|].
    exists post. by rewrite Nat.sub_diag.
  - destruct (IH (S k) H) as (Hle & post' & Hl & Hm).
    split; [lia|]. exists post'. split; [|done].
    by replace (postIndex it - k) with (S (postIndex it - S k)) by lia.
Qed.

(** X9. Every media item the loop takes up comes from the dataset, and its
    indices are positions: [postIndex] is the position of its post in the
    list of posts, counted from 1, and for a carousel item [carouselIndex]
    is the position of the item among the entries of [sidecarItems],
    counted from 1; posts and entries that gave nothing count too.  The
    URL of the item is the [videoUrl] of that entry for a video and its
    [displayUrl] for an image. *)
Theorem media_items_are_indexed_by_position username post_list
    (s : state W float) :
  ∃ tr,
    trace (for_each (enumerate post_list 1)
             (process_post (images_dir_of username) (videos_dir_of username))
             s).2 = trace s ++ tr
    ∧ ∀ it, it ∈ items tr →
        1 ≤ postIndex it
        ∧ ∃ post, post_list !! (postIndex it - 1) = Some post
            ∧ match carouselIndex it with
              | None => entry_has post it
              | Some j =>
                  1 ≤ j
                  ∧ ∃ item, carousel_entries post !! (j - 1) = Some item
                      ∧ entry_has item it
              end.
Proof.
  destruct (effects_run
    (for_each (enumerate post_list 1)
       (process_post (images_dir_of username) (videos_dir_of username)))
    _ s
    (process_posts_loop_effects _ _ post_list 1
       (images_videos_differ username)))
    as (tr & imgs & Htr & _ & _ & Hi & _).
  exists tr. split; [done|]. intros it Hit. rewrite Hi in Hit.
  by apply decompose_from_source.
Qed.

(** *** Where the files go *)

Lemma prefix_app p x : String.prefix p (p +:+ x) = true.
Proof.
  induction p as [|c p IH]; [by destruct x|].
  change (String.prefix (String c p) (String c (p +:+ x)) = true).
  simpl. by destruct (Ascii.ascii_dec c c).
Qed.

Lemma file_name_prefix i j e : String.prefix "post_" (file_name i j e) = true.
Proof. destruct j; apply prefix_app. Qed.

Lemma derivable_true_url_is_text url e :
  truthy url = true → get_file_extension url = Ok e →
  ∃ text, url = JStr text ∧ text ≠ "".
Proof.
  intros Tu He. destruct url; simpl in He; rewrite ?Tu in He; try done.
  - by destruct b.
  - simpl in Tu. by rewrite Tu in He.
  - exists s. split; [done|]. by intros ->.
  - by destruct l.
  - simpl in Tu. by rewrite Tu in He.
Qed.

(** X10. The loop never writes outside the two media directories: every
    call of [download_media] it makes has a destination directly inside
    [images] or [videos], with a file name that starts with [post_] and
    has no slash, whatever the URLs of the dataset look like; and the URL
    it passes is a string that is not empty. *)
Theorem downloads_stay_in_media_directories username post_list
    (s : state W float) :
  let images_dir := images_dir_of username in
  let videos_dir := videos_dir_of username in
  ∃ tr,
    trace (for_each (enumerate post_list 1)
             (process_post images_dir videos_dir) s).2 = trace s ++ tr
    ∧ ∀ url save_path, (url, save_path) ∈ attempts tr →
        (parent save_path = images_dir ∨ parent save_path = videos_dir)
        ∧ (∃ file, parts save_path = parts (parent save_path) ++ [file]
             ∧ String.prefix "post_" file = true
             ∧ has_char "/" file = false)
        ∧ ∃ text, url = JStr text ∧ text ≠ "".
Proof.
  intros images_dir videos_dir.
  destruct (effects_run
    (for_each (enumerate post_list 1) (process_post images_dir videos_dir))
    _ s
    (process_posts_loop_effects _ _ post_list 1
       (images_videos_differ username)))
    as (tr & imgs & Htr & _ & _ & Hi & Ha & _).
  exists tr. split; [done|]. intros url save_path Hin.
  rewrite Ha in Hin.
  apply list_elem_of_omap in Hin as (it & Hit & Hatt).
  rewrite Hi in Hit.
  pose proof (proj1 (Forall_forall _ _) (decompose_from_truthy post_list 1)
                it Hit) as Tu.
  simpl in Tu.
  unfold attempt_of, plan_in in Hatt.
  destruct (get_file_extension (sourceUrl it)) as [e|] eqn:He; [|done].
  injection Hatt as <- <-.
  pose proof (get_file_extension_shape _ _ He) as Hext.
  rewrite parent_div_file_name by done.
  split_and!.
  - destruct (kind it); [by left|by right].
  - exists (file_name (postIndex it) (carouselIndex it) e).
    rewrite div_file_name by done.
    split_and!; [done|apply file_name_prefix|by apply file_name_no_slash].
  - by eapply derivable_true_url_is_text.
Qed.

(** *** How many there can be *)

Lemma decompose_items_length i l k :
  length (decompose_items i (enumerate l k)).1 ≤ length l.
Proof.
  revert k. induction l as [|item l IH]; intros k; simpl; [done|].
  pose proof (decompose_entry_short i (Some k) item) as Hs.
  destruct (decompose_entry i (Some k) item) as [a go]. simpl in *.
  destruct go; simpl; [|lia].
  specialize (IH (S k)).
  destruct (decompose_items i (enumerate l (S k))) as [b go']. simpl in *.
  rewrite length_app. lia.
Qed.

Lemma decompose_length i post :
  length (decompose i post) ≤ 1 + length (carousel_entries post).
Proof.
  unfold decompose.
  pose proof (decompose_entry_short i None post) as Hs.
  destruct (decompose_entry i None post) as [a go]. simpl in *.
  destruct go; simpl; [|lia]. rewrite length_app.
  assert (length (decompose_sidecar i post).1
          ≤ length (carousel_entries post)); [|lia].
  unfold decompose_sidecar, carousel_entries.
  destruct (get post "sidecarItems") as [sc|]; [|done].
  destruct (truthy sc); [|done].
  destruct (iter sc) as [l|]; [|simpl; lia].
  apply decompose_items_length.
Qed.

Lemma decompose_from_length l k :
  length (mbind (M := list) (λ '(i, post), decompose i post) (enumerate l k))
  ≤ length l + sum_list_with (λ post, length (carousel_entries post)) l.
Proof.
  revert k. induction l as [|post l IH]; intros k; simpl; [done|].
  rewrite length_app. pose proof (decompose_length k post).
  specialize (IH (S k)). unfold mbind in IH. lia.
Qed.

Lemma omap_length_le {A B} (f : A → option B) (l : list A) :
  length (omap f l) ≤ length l.
Proof.
  induction l as [|x l IH]; csimpl; [done|]. destruct (f x); csimpl; lia.
Qed.


End WithCollaborators.
End PostLoopFacts.

(** ** More on the annotator *)

Module AnnotatorFacts.
Import Scraper EffectRules Annotator.

Section WithCollaborators.
Context {W float : Type} `{C : Collaborators W float}.

Lemma vision_analysis_silent p (s : state W float) :
  trace (vision_analysis p s).2 = trace s
  ∧ downloaded_images (vision_analysis p s).2 = downloaded_images s.
Proof.
  unfold vision_analysis, bind, call, ret.
  destruct (read_bytes p (world s)) as [[img|] w1]; [|done]. simpl.
  destruct (face_detection img w1) as [[faces|] w2]; [|done]. simpl.
  destruct (label_detection img w2) as [[labels|] w3]; [|done]. simpl.
  by destruct (safe_search_detection img w3) as [[safe|] w4].
Qed.

Lemma analyze_image_turn_log p (s : state W float) :
  ∃ r s1,
    (∀ results, analyze_image results p s = (Ok (results ++ [r]), s1))
    ∧ trace s1 = trace s ++ [log_of_record r]
    ∧ downloaded_images s1 = downloaded_images s
    ∧ world s1 = world (vision_analysis p s).2.
Proof.
  unfold analyze_image, try_except, bind.
  destruct (vision_analysis_silent p s) as [Ht Hi].
  destruct (vision_analysis p s) as [[a|e] s0] eqn:Hv; simpl in *.
  - apply vision_analysis_record in Hv as [Hp He].
    eexists a, _. split; [intros results; reflexivity|]. simpl.
    rewrite Ht, Hi. destruct a; simpl in *; [|done]. by subst.
  - eexists (AnalysisError (path_str p) (exn_str e)), _.
    split; [intros results; reflexivity|]. simpl. by rewrite Ht, Hi.
Qed.

Lemma analyze_loop_log paths :
  ∀ s : state W float, ∃ recs s',
    (∀ results, analyze_loop results paths s = (Ok (results ++ recs), s'))
    ∧ trace s' = trace s ++ (log_of_record <$> recs)
    ∧ downloaded_images s' = downloaded_images s.
Proof.
  induction paths as [|p rest IH]; intros s.
  - exists [], s. split; [|by rewrite app_nil_r]. intros results. simpl.
    by rewrite app_nil_r.
  - destruct (analyze_image_turn_log p s) as (r & s1 & Hturn & Ht & Hi & _).
    destruct (IH s1) as (recs & s' & Hloop & Ht' & Hi').
    exists (r :: recs), s'. split_and!.
    + intros results. simpl. unfold bind. rewrite Hturn, Hloop.
      by rewrite <- app_assoc.
    + rewrite Ht', Ht, fmap_cons. by rewrite <- app_assoc.
    + by rewrite Hi', Hi.
Qed.

(** X12. What [analyze_images] logs is told by what it returns: it adds
    exactly one line for each record, in order, the success line with the
    path for an analysis and the error line with the path and the text of
    the exception for an error record.  It adds no other event and leaves
    [downloaded_images] alone. *)
Theorem analyze_images_logs_each_record paths (s : state W float) :
  ∃ recs s',
    analyze_images paths s = (Ok recs, s')
    ∧ trace s' = trace s ++ (log_of_record <$> recs)
    ∧ downloaded_images s' = downloaded_images s.
Proof.
  destruct (analyze_loop_log paths s) as (recs & s' & Hloop & Ht & Hi).
  exists recs, s'. split; [apply (Hloop [])|done].
Qed.

(** X13. The analysis of an image stops at its first step that raises: an
    image that cannot be read costs no call of the vision service, and
    after a failed face detection neither labels nor safe search are asked
    for.  The image gets its error record and its error line, and the
    loop goes on with the other images from the world the failed step
    left. *)
Theorem failed_step_ends_the_analysis p rest (s : state W float) :
  let failed e w :=
    ∃ recs s',
      analyze_images rest
        {| world := w;
           trace := trace s ++ [Log ERROR ("Error analyzing " +:+ path_str p
                                           +:+ ": " +:+ exn_str e)];
           downloaded_images := downloaded_images s |} = (Ok recs, s')
      ∧ analyze_images (p :: rest) s
        = (Ok (AnalysisError (path_str p) (exn_str e) :: recs), s') in
  (∀ e w, read_bytes p (world s) = (Raise e, w) → failed e w)
  ∧ (∀ image w1 e w,
       read_bytes p (world s) = (Ok image, w1) →
       face_detection image w1 = (Raise e, w) → failed e w)
  ∧ (∀ image w1 faces w2 e w,
       read_bytes p (world s) = (Ok image, w1) →
       face_detection image w1 = (Ok faces, w2) →
       label_detection image w2 = (Raise e, w) → failed e w)
  ∧ (∀ image w1 faces w2 labels w3 e w,
       read_bytes p (world s) = (Ok image, w1) →
       face_detection image w1 = (Ok faces, w2) →
       label_detection image w2 = (Ok labels, w3) →
       safe_search_detection image w3 = (Raise e, w) → failed e w).
Proof.
  intros failed.
  assert (∀ e w,
    vision_analysis p s
    = (Raise e, {| world := w; trace := trace s;
                   downloaded_images := downloaded_images s |}) →
    failed e w) as Hfail.
  { intros e w Hv. unfold failed.
    match goal with
    | |- ∃ recs s', analyze_images rest ?s1 = _ ∧ _ =>
        destruct (analyze_loop_results rest s1) as (recs & s' & Hloop & _)
    end.
    exists recs, s'. split; [apply (Hloop [])|].
    unfold analyze_images. simpl. unfold bind, analyze_image, try_except.
    unfold bind at 1. rewrite Hv. unfold logger_error, emit, ret, bind.
    simpl. by rewrite Hloop. }
  split_and!.
  - intros e w H. apply Hfail. unfold vision_analysis, bind, call.
    by rewrite H.
  - intros image w1 e w H1 H2. apply Hfail.
    unfold vision_analysis, bind, call. rewrite H1. simpl. by rewrite H2.
  - intros image w1 faces w2 e w H1 H2 H3. apply Hfail.
    unfold vision_analysis, bind, call. rewrite H1. simpl. rewrite H2. simpl.
    by rewrite H3.
  - intros image w1 faces w2 labels w3 e w H1 H2 H3 H4. apply Hfail.
    unfold vision_analysis, bind, call. rewrite H1. simpl. rewrite H2. simpl.
    rewrite H3. simpl. by rewrite H4.
Qed.

End WithCollaborators.
End AnnotatorFacts.

(** ** More on a whole run *)

Module RunFacts.
Import Str Scraper EffectRules PlannerFacts Annotator Pipeline.

Section WithCollaborators.
Context {W float : Type} `{C : Collaborators W float}.

Lemma dumps_nil_no_metadata (tr : list (event float)) p v :
  dumps tr = [] → DumpMetadata p v ∉ tr.
Proof.
  intros Hd Hin.
  assert (DumpMetadata p v ∈ dumps tr) as H.
  { unfold dumps. apply list_elem_of_omap. by exists (DumpMetadata p v). }
  rewrite Hd in H. by apply elem_of_nil in H.
Qed.

(** Every way [fetch_posts] can end: before the metadata is dumped, with
    an exception and no event; or after it, and then the post loop either
    cannot start because the dataset is not iterable, or runs to its
    end. *)
Lemma fetch_posts_shape base_dir images_dir videos_dir run_input
    (s : state W float) :
  images_dir ≠ videos_dir →
  let mp := base_dir // "metadata.json" in
  let out := fetch_posts base_dir images_dir videos_dir run_input s in
  (∃ e, out.1 = Raise e ∧ trace out.2 = trace s)
  ∨ ∃ posts,
      match iter posts with
      | Ok post_list =>
          ∃ tr, out.1 = Ok (mp, posts)
            ∧ trace out.2 = trace s ++ DumpMetadata mp posts :: tr
            ∧ items tr = decompose_all post_list
            ∧ orderly images_dir videos_dir tr (downloaded_images out.2)
      | Raise e =>
          out.1 = Raise e ∧ trace out.2 = trace s ++ [DumpMetadata mp posts]
      end.
Proof.
  intros Hdirs mp out. subst out. unfold fetch_posts, bind, call, lift, emit.
  destruct (actor_call run_input (world s)) as [[run|] w1]; [|left; eauto].
  simpl. destruct (getitem run "defaultDatasetId") as [id|]; [|left; eauto].
  destruct (requests_get _ false w1) as [[resp|] w2]; [|left; eauto].
  simpl. destruct (raise_for_status resp); [|left; eauto].
  destruct (open_w _ w2) as [[[]|] w3]; [|left; eauto]. simpl.
  destruct (json_loads (content resp)) as [posts|]; [|left; eauto].
  destruct (dump_json _ posts w3) as [[[]|] w4]; [|left; eauto]. simpl.
  right. exists posts.
  match goal with
  | |- context [process_posts images_dir videos_dir posts ?s0] =>
      pose proof (process_posts_run images_dir videos_dir posts s0 Hdirs)
        as Hrun;
      destruct (process_posts images_dir videos_dir posts s0)
        as [r s5]
  end.
  destruct (iter posts) as [l|e]; simpl in *.
  - destruct Hrun as (tr & -> & Htr & Hi & Ho). exists tr. unfold ret.
    simpl. split_and!; try done. rewrite Htr. simpl.
    by rewrite <- app_assoc.
  - destruct Hrun as [-> Htr]. simpl. by rewrite Htr.
Qed.

(** The four ways a run can go, told by its new events: the directories
    cannot be made; the run fails before the metadata is written; the
    metadata is written and the dataset cannot be iterated over; the post
    loop runs, and the run ends either with an error or with the dump of
    the analysis results. *)
Lemma run_anatomy username limit (s : state W float) :
  let start :=
    Log (float := float) INFO ("Starting to scrape posts from " +:+ username
                               +:+ "'s Instagram...") in
  let base := base_dir_of username in
  let mp := base // "metadata.json" in
  let ap := base // "analysis_results.json" in
  let error e :=
    Log (float := float) ERROR ("Error in scrape_and_analyze: "
                                +:+ exn_str e) in
  ∃ r s' tr,
    scrape_and_analyze username limit s = (r, s')
    ∧ trace s' = trace s ++ start :: tr
    ∧ ((tr = [] ∧ ∃ e, r = Raise e)
       ∨ (∃ e, tr = [error e] ∧ r = Ok (Failure (exn_str e)))
       ∨ (∃ posts e, iter posts = Raise e
            ∧ tr = [DumpMetadata mp posts; error e]
            ∧ r = Ok (Failure (exn_str e)))
       ∨ (∃ posts post_list before final, iter posts = Ok post_list
            ∧ tr = DumpMetadata mp posts :: before ++ [final]
            ∧ dumps before = []
            ∧ ((∃ e, final = error e ∧ r = Ok (Failure (exn_str e)))
               ∨ (∃ recs, final = DumpAnalysis ap recs
                    ∧ r = Ok (Success (path_str base) (length post_list)
                                (length recs) (path_str mp)
                                (path_str ap)))))).
Proof.
  intros start base mp ap error.
  destruct (create_download_directory username
              (logger_info ("Starting to scrape posts from " +:+ username
                            +:+ "'s Instagram...") s).2)
    as [[dirs|e] sd] eqn:Hd.
  2: { rewrite (scrape_and_analyze_no_dirs _ limit _ _ _ Hd).
       apply create_download_directory_run in Hd as (Hsd & _ & _).
       eexists _, _, []. split; [done|]. split; [done|]. left. eauto. }
  rewrite (scrape_and_analyze_run _ limit _ _ _ Hd). simpl.
  apply create_download_directory_run in Hd as (Hsd & _ & _). simpl in Hsd.
  destruct (fetch_posts_shape (base_dir_of username) (images_dir_of username)
              (videos_dir_of username) (run_input_of username limit) sd
              (images_videos_differ username)) as [(e & Hr & Ht)|(posts & H)].
  { destruct (fetch_posts _ _ _ _ sd) as [r s1]. simpl in *. subst r.
    eexists _, _, [error e]. split; [done|]. simpl. rewrite Ht, Hsd.
    split; [by rewrite <- app_assoc|]. right. left. eauto. }
  destruct (fetch_posts _ _ _ _ sd) as [r s1]. simpl in H.
  destruct (iter posts) as [l|e] eqn:Hiter.
  2: { destruct H as [-> Ht].
       eexists _, _, [DumpMetadata mp posts; error e]. split; [done|].
       simpl. rewrite Ht, Hsd. split; [by rewrite <- !app_assoc|].
       right. right. left. eauto. }
  destruct H as (tr & -> & Ht & Hi & (_ & _ & Hdumps)).
  destruct (annotate_and_save_run base mp posts s1)
    as (recs & s2 & Han & _ & Hsave).
  fold base mp. rewrite Hsave. clear Hsave. simpl.
  destruct (analyze_images_quiet (downloaded_images s1) s1)
    as (tr_a & Hs2 & _ & _ & Hdua & _).
  rewrite Han in Hs2. simpl in Hs2.
  assert (dumps (tr ++ tr_a) = []) as Hquiet.
  { by rewrite dumps_app, Hdumps, Hdua. }
  assert (∀ final, trace s2 ++ [final]
                   = trace s ++ start :: DumpMetadata mp posts
                       :: (tr ++ tr_a) ++ [final]) as Htrace.
  { intros final. rewrite Hs2, Ht, Hsd. by rewrite <- !app_assoc. }
  fold ap.
  destruct (open_w ap (world s2)) as [[[]|e] w].
  2: { eexists _, _, _. split; [done|]. simpl. split; [apply Htrace|].
       do 3 right. exists posts, l, (tr ++ tr_a). eexists.
       split_and!; eauto. }
  destruct (dump_records ap recs w) as [[[]|e] w'].
  2: { eexists _, _, _. split; [done|]. simpl. split; [apply Htrace|].
       do 3 right. exists posts, l, (tr ++ tr_a). eexists.
       split_and!; eauto. }
  rewrite (len_of_iter _ _ Hiter).
  eexists _, _, _. split; [done|]. simpl. split; [apply Htrace|].
  do 3 right. exists posts, l, (tr ++ tr_a). eexists. split_and!; eauto.
Qed.

Lemma path_str_under_base username name :
  parse_parts name = [name] →
  path_str (base_dir_of username // name)
  = path_str (base_dir_of username) +:+ "/" +:+ name.
Proof.
  intros Hname.
  assert (parts (base_dir_of username)
          = "instagram_downloads" :: parse_parts username) as Hbase.
  { apply FetcherFacts.parse_parts_base. }
  assert (path_str (base_dir_of username)
          = join "/" (parts (base_dir_of username))) as ->.
  { unfold path_str. by rewrite Hbase. }
  unfold div. rewrite Hname.
  by rewrite path_str_snoc by (by rewrite Hbase).
Qed.


(** X15. A dataset that is not iterable ends the run right after it was
    saved: when a run dumps as metadata a value over which [iter] raises,
    the run returns the error summary with the text of that exception,
    and beyond its start it has only dumped the metadata, into
    [metadata.json] of the base directory, and logged the error: no item
    was taken up, nothing was downloaded or analysed. *)
Theorem dataset_must_be_iterable username limit (s : state W float)
    r s' tr p posts e :
  scrape_and_analyze username limit s = (r, s') →
  trace s' = trace s ++ tr →
  DumpMetadata p posts ∈ tr →
  iter posts = Raise e →
  r = Ok (Failure (exn_str e))
  ∧ p = base_dir_of username // "metadata.json"
  ∧ tr = [Log INFO ("Starting to scrape posts from " +:+ username
                    +:+ "'s Instagram...");
          DumpMetadata p posts;
          Log ERROR ("Error in scrape_and_analyze: " +:+ exn_str e)].
Proof.
  intros Hrun Htr Hin Hiter.
  destruct (run_anatomy username limit s)
    as (r0 & s0 & tr0 & Hrun0 & Htr0 & Hcases).
  rewrite Hrun in Hrun0. injection Hrun0 as <- <-.
  rewrite Htr in Htr0. apply app_inv_head in Htr0. subst tr.
  apply elem_of_cons in Hin as [?|Hin]; [done|].
  destruct Hcases as [[-> _]|[(e0 & -> & _)|[(posts0 & e0 & Hiter0 & -> & ->)|
    (posts0 & l & mid & final & Hiter0 & -> & Hmid & Hfinal)]]].
  - by apply elem_of_nil in Hin.
  - by apply list_elem_of_singleton in Hin.
  - apply elem_of_cons in Hin as [Heq|Hin].
    + injection Heq as -> ->. rewrite Hiter in Hiter0.
      by injection Hiter0 as ->.
    + by apply list_elem_of_singleton in Hin.
  - exfalso. apply elem_of_cons in Hin as [Heq|Hin].
    + injection Heq as -> ->. by rewrite Hiter in Hiter0.
    + apply elem_of_app in Hin as [Hin|Hin].
      * by apply dumps_nil_no_metadata in Hin.
      * apply list_elem_of_singleton in Hin.
        by destruct Hfinal as [(? & -> & _)|(? & -> & _)].
Qed.

(** X16. The limit is handed to the scraping actor and used for nothing
    else: two runs for the same user from the same state whose actor calls
    answer alike are the same run, whatever their limits.  The program
    itself never cuts the dataset down to the limit. *)
Theorem limit_only_reaches_the_actor username limit limit'
    (s : state W float) :
  (∀ w, actor_call (run_input_of username limit) w
        = actor_call (run_input_of username limit') w) →
  scrape_and_analyze username limit s = scrape_and_analyze username limit' s.
Proof.
  intros Hactor.
  destruct (create_download_directory username
              (logger_info ("Starting to scrape posts from " +:+ username
                            +:+ "'s Instagram...") s).2)
    as [[dirs|e] sd] eqn:Hd.
  - rewrite !(scrape_and_analyze_run _ _ _ _ _ Hd). simpl.
    assert (fetch_posts (base_dir_of username) (images_dir_of username)
              (videos_dir_of username) (run_input_of username limit) sd
            = fetch_posts (base_dir_of username) (images_dir_of username)
                (videos_dir_of username) (run_input_of username limit') sd)
      as ->; [|done].
    unfold fetch_posts. unfold bind at 1. unfold call at 1.
    rewrite Hactor. reflexivity.
  - by rewrite !(scrape_and_analyze_no_dirs _ _ _ _ _ Hd).
Qed.


End WithCollaborators.
End RunFacts.

(** ** More on the entry point *)

Module MainFacts.
Import Str Scraper Main EffectRules PlannerFacts Pipeline.

Section WithCollaborators.
Context {W float : Type} `{C : Collaborators W float} `{K : Console W}.


End WithCollaborators.
End MainFacts.

(** ** Examples for the further properties *)

Module MoreExamples.
Import Str Scraper Main PlannerFacts PostLoop Annotator Pipeline.
Import ExtensionFacts FetcherFacts PostLoopFacts AnnotatorFacts RunFacts
  MainFacts.

#[local] Existing Instance Demo.happy_world.
#[local] Existing Instance Demo.console_bob.

Lemma extension_is_tidy_witness :
  get_file_extension (JStr "https://cdn.example/x/c.JPG?sig=1") = Ok ".jpg"
  ∧ lower ".jpg" = ".jpg"
  ∧ ∃ r, ".jpg" = String "." r
      ∧ has_char "." r = false ∧ has_char "/" r = false.
Proof.
  assert (get_file_extension (JStr "https://cdn.example/x/c.JPG?sig=1")
          = Ok ".jpg") as H by (vm_compute; reflexivity).
  split; [exact H|].
  exact (extension_is_tidy _ _ H).
Defined.

Lemma extension_defaults_to_jpg_witness :
  urlparse_path "https://cdn.example/v1.2/photo?x=1" = Ok ("/v1.2/" +:+ "photo")
  ∧ get_file_extension (JStr "https://cdn.example/v1.2/photo?x=1")
    = Ok ".jpg".
Proof.
  assert (urlparse_path "https://cdn.example/v1.2/photo?x=1"
          = Ok ("/v1.2/" +:+ "photo")) as H by (vm_compute; reflexivity).
  split; [exact H|].
  apply (extension_defaults_to_jpg _ _ _ H).
  - right. exists "/v1.2". reflexivity.
  - reflexivity.
  - reflexivity.
Defined.

Lemma extension_of_file_name_witness :
  urlparse_path "https://cdn.example/a.b/..Clip.tar.MP4#t"
  = Ok ("/a.b/" +:+ ".." +:+ String "C" ("lip.tar" +:+ String "." "MP4"))
  ∧ get_file_extension (JStr "https://cdn.example/a.b/..Clip.tar.MP4#t")
    = Ok ".mp4".
Proof.
  assert (urlparse_path "https://cdn.example/a.b/..Clip.tar.MP4#t"
          = Ok ("/a.b/" +:+ ".." +:+ String "C" ("lip.tar" +:+ String "." "MP4")))
    as H by (vm_compute; reflexivity).
  split; [exact H|].
  apply (extension_of_file_name _ _ _ _ _ _ H).
  - right. exists "/a.b". reflexivity.
  - reflexivity.
  - discriminate.
  - discriminate.
  - reflexivity.
  - reflexivity.
  - reflexivity.
Defined.

Lemma directory_failure_witness :
  let C := Demo.read_only in
  scrape_and_analyze (C := C) "bob" 5 Demo.start
  = (Raise (Exn "PermissionError" "Permission denied"),
     {| world := [];
        trace := [Log INFO "Starting to scrape posts from bob's Instagram..."];
        downloaded_images := [] |}).
Proof.
  intros C.
  exact (proj1 (directory_failure_reaches_caller (C := C) "bob" 5 Demo.start)
           (Exn "PermissionError" "Permission denied") [] eq_refl).
Defined.

Lemma download_directory_layout_witness :
  ∃ base_dir images_dir videos_dir,
    create_download_directory "bob" Demo.start
    = (Ok (base_dir, images_dir, videos_dir), Demo.start)
    ∧ parts base_dir = ["instagram_downloads"; "bob"]
    ∧ path_str images_dir = path_str base_dir +:+ "/images"
    ∧ path_str videos_dir = path_str base_dir +:+ "/videos".
Proof.
  destruct (download_directory_layout (C := Demo.happy_world) "bob"
              Demo.start [] [] [] eq_refl eq_refl eq_refl)
    as (b & i & v & Hrun & Hb & _ & _ & _ & Hi & Hv).
  exists b, i, v. split; [exact Hrun|]. split; [exact Hb|].
  split; [exact Hi|exact Hv].
Defined.

Lemma non_dictionary_entries_witness :
  for_each (enumerate [JStr "x"; JNum 3] 1)
    (process_post (images_dir_of "bob") (videos_dir_of "bob")) Demo.start
  = (Ok tt,
     {| world := [];
        trace :=
          [Log ERROR
             "Error processing post 1: 'str' object has no attribute 'get'";
           Log ERROR
             "Error processing post 2: 'int' object has no attribute 'get'"];
        downloaded_images := [] |}).
Proof.
  assert (Forall (λ post, ∀ m, post ≠ JObj m) [JStr "x"; JNum 3]) as H.
  { repeat constructor; discriminate. }
  exact (proj1 (non_dictionary_entries_are_skipped (images_dir_of "bob")
                  (videos_dir_of "bob")) _ 1 Demo.start H).
Defined.

Lemma underivable_extension_witness :
  process_post (images_dir_of "bob") (videos_dir_of "bob")
    (1, JObj (list_to_map [("videoUrl", JStr "http://[")])) Demo.start
  = (Ok tt,
     {| world := [];
        trace :=
          [Item {| sourceUrl := JStr "http://["; kind := Video;
                   postIndex := 1; carouselIndex := None |};
           Log ERROR "Error processing post 1: Invalid IPv6 URL"];
        downloaded_images := [] |}).
Proof.
  assert (get (JObj (list_to_map [("videoUrl", JStr "http://[")])) "videoUrl"
          = Ok (JStr "http://[")) as Hv by (vm_compute; reflexivity).
  assert (get (JObj (list_to_map [("videoUrl", JStr "http://[")]))
            "displayUrl" = Ok JNull) as Hd by (vm_compute; reflexivity).
  exact (underivable_extension_abandons_post (images_dir_of "bob")
           (videos_dir_of "bob") 1 _ _ _
           (Exn "ValueError" "Invalid IPv6 URL") Demo.start Hv Hd
           (or_introl (conj eq_refl eq_refl))).
Defined.


Lemma failed_step_witness :
  let C := Demo.scripted Demo.second_image_refused in
  let p := images_dir_of "bob" // "post_2_carousel_1.jpg" in
  ∃ recs,
    (analyze_images (C := C) [p] Demo.start).1
    = Ok (AnalysisError (float := nat) (path_str p) "service unavailable"
          :: recs).
Proof.
  intros C p.
  assert (read_bytes (Collaborators := C) p (world Demo.start)
          = (Ok (path_str p), [])) as Hread by reflexivity.
  assert (face_detection (Collaborators := C) (path_str p) []
          = (Raise (Exn "GoogleAPICallError" "service unavailable"), []))
    as Hface by (vm_compute; reflexivity).
  destruct (proj1 (proj2 (failed_step_ends_the_analysis (C := C) p []
                            Demo.start)) _ _ _ _ Hread Hface)
    as (recs & s' & _ & Hrun).
  exists recs. rewrite Hrun. reflexivity.
Defined.

Lemma dataset_must_be_iterable_witness :
  let C := Demo.scripted Demo.null_dataset in
  iter JNull = Raise (Exn "TypeError" "'NoneType' object is not iterable")
  ∧ (scrape_and_analyze (C := C) "bob" 5 Demo.start).1
    = Ok (Failure "'NoneType' object is not iterable").
Proof.
  intros C.
  assert (iter JNull
          = Raise (Exn "TypeError" "'NoneType' object is not iterable"))
    as Hiter by reflexivity.
  split; [exact Hiter|].
  assert (scrape_and_analyze (C := C) "bob" 5 Demo.start
          = ((scrape_and_analyze (C := C) "bob" 5 Demo.start).1,
             (scrape_and_analyze (C := C) "bob" 5 Demo.start).2)) as Hrun
    by (vm_compute; reflexivity).
  assert (trace (scrape_and_analyze (C := C) "bob" 5 Demo.start).2
          = trace Demo.start
            ++ [Log INFO "Starting to scrape posts from bob's Instagram...";
                DumpMetadata (base_dir_of "bob" // "metadata.json") JNull;
                Log ERROR
                  "Error in scrape_and_analyze: 'NoneType' object is not iterable"])
    as Htr by (vm_compute; reflexivity).
  exact (proj1 (dataset_must_be_iterable (C := C) "bob" 5 Demo.start _ _ _
                  (base_dir_of "bob" // "metadata.json") JNull _ Hrun Htr
                  (list_elem_of_further _ _ _ (list_elem_of_here _ _)) Hiter)).
Defined.

Lemma limit_only_reaches_the_actor_witness :
  scrape_and_analyze "bob" 5 Demo.start
  = scrape_and_analyze "bob" 50 Demo.start.
Proof.
  exact (limit_only_reaches_the_actor (C := Demo.happy_world) "bob" 5 50
           Demo.start (λ w, eq_refl)).
Defined.



End MoreExamples.
